(** * ImportWavPack: the WavPack import plugin of Audacity

    A shallow embedding of [src/import/ImportWavPack.cpp] and the
    properties of the import adapter that follow from it.

    The WavPack decoding library, the progress dialog, the wave tracks,
    the tag store and the text type of wxWidgets are collaborators that
    live outside the file.  The library and the dialog are represented by
    the answers they give to the successive calls the plugin makes;
    tracks record what the plugin hands to them; the text type and its
    operations are parameters.

    Part I holds the definitions: the embedding of the code, the
    vocabulary in which its behaviour is stated, and small example
    files.  Part II holds the lemmas and the properties, and the last
    part applies the properties to the example files. *)

From stdpp Require Import gmap strings list fin_maps.
From Stdlib Require Import ZArith Lia Ascii.

Local Open Scope Z_scope.

(** * Part I: definitions *)

(** ** Machine integers *)

(** Conversion to [uint32_t]: the value modulo 2^32. *)
Definition uint32 (x : Z) : Z := x mod 2 ^ 32.

(** ** Host types *)

(** [ProgressResult] of the host's progress dialog. *)
Inductive ProgressResult : Type :=
  | Cancelled
  | Success
  | Failed
  | Stopped.

#[global] Instance ProgressResult_eq_dec : EqDecision ProgressResult.
Proof. solve_decision. Defined.

(** The host's [sampleFormat]; the plugin uses these three. *)
Inductive sampleFormat : Type :=
  | int16Sample
  | int24Sample
  | floatSample.

#[global] Instance sampleFormat_eq_dec : EqDecision sampleFormat.
Proof. solve_decision. Defined.

(** Modelled from the spec: [WaveTrack], [NewWaveTrack], [Append] and
    [Flush] belong to the host and are not part of the file.  A track (one
    channel's sequence of PCM samples) is represented by the format and
    rate it was created with, the buffer elements whose address was handed
    to [Append], in order, and whether [Flush] has been called. *)
Record WaveTrack : Type := {
  wtFormat : sampleFormat;
  wtRate : Z;
  wtSamples : list Z;
  wtFlushed : bool
}.

Definition NewWaveTrack (format : sampleFormat) (rate : Z) : WaveTrack :=
  {| wtFormat := format; wtRate := rate; wtSamples := []; wtFlushed := false |}.

(** [track->Append((char* )&buffer[c], format, 1)]: one sample, read at the
    address of the buffer element [sample]. *)
Definition Append (track : WaveTrack) (sample : Z) (format : sampleFormat) : WaveTrack :=
  {| wtFormat := wtFormat track; wtRate := wtRate track;
     wtSamples := wtSamples track ++ [sample]; wtFlushed := wtFlushed track |}.

Definition Flush (track : WaveTrack) : WaveTrack :=
  {| wtFormat := wtFormat track; wtRate := wtRate track;
     wtSamples := wtSamples track; wtFlushed := true |}.

(** [using NewChannelGroup = std::vector<std::shared_ptr<WaveTrack>>] *)
Abbreviation NewChannelGroup := (list WaveTrack).

(** [TrackHolders]: a vector of channel groups. *)
Abbreviation TrackHolders := (list NewChannelGroup).

(** ** Text

    [wxString] and its operations belong to wxWidgets, and the macros
    [wxT] and [UTF8CTOWX] are defined outside the file.  How bytes become
    text (what happens to bytes that are not UTF-8, how characters are
    counted, which texts are numbers) is decided there, so the text type
    and its operations are parameters: everything below holds for every
    text type that has them. *)
Class WxString : Type := {
  wxString : Type;
  wxString_eq_dec :: EqDecision wxString;
  wxString_countable :: Countable wxString;
  (** [wxT("...")]: the text of a literal *)
  wxT : string -> wxString;
  (** [UTF8CTOWX(X)]: the text the macro reads from the char buffer [X];
      the argument lists the bytes the library has written into the
      buffer, without the NUL it appends *)
  UTF8CTOWX : string -> wxString;
  (** [s.Upper()] *)
  Upper : wxString -> wxString;
  (** [s.length()] *)
  wxString_length : wxString -> nat;
  (** [s.ToLong(&val)]: whether the text is read as a number *)
  ToLong : wxString -> bool
}.

(** Modelled from the spec: the tag store ([Tags], not part of the file)
    is the host's key/value metadata container.  [Clear] empties it,
    [SetTag] stores a value under a key and [HasTag] tells whether a key
    is present. *)
Abbreviation Tags := (gmap wxString wxString).

Section Model.

Context {W : WxString}.

Definition Tags_Clear (tags : Tags) : Tags := ∅.

Definition SetTag (name value : wxString) (tags : Tags) : Tags := <[name := value]> tags.

Definition HasTag (name : wxString) (tags : Tags) : bool :=
  bool_decide (is_Some (tags !! name)).

(** [#define TAG_YEAR wxT("YEAR")] of the host's Tags.h. *)
Definition TAG_YEAR : wxString := wxT "YEAR".

(** The progress dialog: [pdAnswers k] is what the [k]-th next call of
    [Update] returns (the user may press Cancel or Stop at any time). *)
Record ProgressDialog : Type := {
  pdAnswers : nat -> ProgressResult
}.

Definition CreateProgress (user : nat -> ProgressResult) : ProgressDialog :=
  {| pdAnswers := user |}.

Definition Update (progress : ProgressDialog) : ProgressDialog * ProgressResult :=
  ({| pdAnswers := fun k => pdAnswers progress (S k) |}, pdAnswers progress 0%nat).

(** ** The decoding library *)

(** Constants of wavpack.h used by the plugin. *)
Definition OPEN_WVC : Z := 0x1.
Definition OPEN_TAGS : Z := 0x2.
Definition OPEN_FILE_UTF8 : Z := 0x80.
Definition MODE_VALID_TAG : Z := 0x10.
Definition MODE_APETAG : Z := 0x100.

(** What one call of [WavpackUnpackSamples] leaves behind: the contents of
    the caller's buffer after the call and the returned number of frames
    (complete samples, one value per channel). *)
Record UnpackReply : Type := {
  urBuffer : list Z;
  urCount : Z
}.

(** An open file as seen through the library's API: the values its getters
    return, the reply of each future [WavpackUnpackSamples] call, and the
    frame counts requested so far. *)
Record WavpackContext : Type := {
  wpNumChannels : Z;
  wpSampleRate : Z;
  wpBitsPerSample : Z;
  wpBytesPerSample : Z;
  wpNumSamples64 : Z;
  wpMode : Z;
  wpNumTagItems : Z;
  wpTagItemIndexed : Z -> string;
  wpTagItem : string -> string;
  wpDecoder : nat -> UnpackReply;
  wpRequested : list Z
}.

Definition WavpackGetNumChannels (wpc : WavpackContext) : Z := wpNumChannels wpc.
Definition WavpackGetSampleRate (wpc : WavpackContext) : Z := wpSampleRate wpc.
Definition WavpackGetBitsPerSample (wpc : WavpackContext) : Z := wpBitsPerSample wpc.
Definition WavpackGetBytesPerSample (wpc : WavpackContext) : Z := wpBytesPerSample wpc.
Definition WavpackGetNumSamples64 (wpc : WavpackContext) : Z := wpNumSamples64 wpc.
Definition WavpackGetMode (wpc : WavpackContext) : Z := wpMode wpc.
Definition WavpackGetNumTagItems (wpc : WavpackContext) : Z := wpNumTagItems wpc.

(** The key of the tag item at [index], as the library copies it into a
    buffer that is large enough. *)
Definition WavpackGetTagItemIndexed (wpc : WavpackContext) (index : Z) : string :=
  wpTagItemIndexed wpc index.

(** The value bytes stored under the key [item]; their number is the
    length the library reports. *)
Definition WavpackGetTagItem (wpc : WavpackContext) (item : string) : string :=
  wpTagItem wpc item.

(** [WavpackUnpackSamples(wpc, buffer, samples)]: the library fills the
    buffer and returns a [uint32_t] frame count; the request is logged and
    the decoder moves on to its next reply. *)
Definition WavpackUnpackSamples (wpc : WavpackContext) (samples : Z)
  : WavpackContext * list Z * Z :=
  let reply := wpDecoder wpc 0%nat in
  ({| wpNumChannels := wpNumChannels wpc;
      wpSampleRate := wpSampleRate wpc;
      wpBitsPerSample := wpBitsPerSample wpc;
      wpBytesPerSample := wpBytesPerSample wpc;
      wpNumSamples64 := wpNumSamples64 wpc;
      wpMode := wpMode wpc;
      wpNumTagItems := wpNumTagItems wpc;
      wpTagItemIndexed := wpTagItemIndexed wpc;
      wpTagItem := wpTagItem wpc;
      wpDecoder := fun k => wpDecoder wpc (S k);
      wpRequested := wpRequested wpc ++ [samples] |},
   urBuffer reply, uint32 (urCount reply)).

(** The library's [WavpackOpenFileInput(name, error, flags, norm_offset)]:
    a context, or nothing when the file cannot be opened. *)
Definition WavpackLibrary : Type := string -> Z -> Z -> option WavpackContext.

(** ** The plugin *)

(** [static const auto exts = { wxT("wv") };] *)
Definition exts : list string := ["wv"%string].

(** The fields of [WavPackImportFileHandle]; [mFilename] and [mProgress]
    come from the base class [ImportFileHandle]. *)
Record WavPackImportFileHandle : Type := {
  mFilename : string;
  mProgress : option ProgressDialog;
  mWavPackContext : WavpackContext;
  mNumChannels : Z;
  mSampleRate : Z;
  mBitsPerSample : Z;
  mBytesPerSample : Z;
  mNumSamples : Z;
  mChannels : NewChannelGroup;
  mFormat : sampleFormat
}.

(** The constructor [WavPackImportFileHandle::WavPackImportFileHandle]. *)
Definition WavPackImportFileHandle_ctor (filename : string) (wavpackContext : WavpackContext)
  : WavPackImportFileHandle :=
  let bitsPerSample := WavpackGetBitsPerSample wavpackContext in
  {| mFilename := filename;
     mProgress := None;
     mWavPackContext := wavpackContext;
     mNumChannels := WavpackGetNumChannels wavpackContext;
     mSampleRate := WavpackGetSampleRate wavpackContext;
     mBitsPerSample := bitsPerSample;
     mBytesPerSample := WavpackGetBytesPerSample wavpackContext;
     mNumSamples := WavpackGetNumSamples64 wavpackContext;
     mChannels := [];
     mFormat :=
       if bitsPerSample <=? 16 then int16Sample
       else if bitsPerSample <=? 24 then int24Sample
       else floatSample |}.

(** The plugin object: [ImportPlugin(FileExtensions(exts.begin(), exts.end()))]. *)
Record WavPackImportPlugin : Type := {
  mExtensions : list string
}.

Definition WavPackImportPlugin_ctor : WavPackImportPlugin :=
  {| mExtensions := exts |}.

Definition WavPackImportPlugin_GetPluginStringID : string := "libwavpack".

(** [WavPackImportPlugin::Open] *)
Definition WavPackImportPlugin_Open (WavpackOpenFileInput : WavpackLibrary) (filename : string)
  : option WavPackImportFileHandle :=
  let flags := Z.lor (Z.lor OPEN_WVC OPEN_FILE_UTF8) OPEN_TAGS in
  match WavpackOpenFileInput filename flags 0 with
  | None => None
  | Some wavpackContext => Some (WavPackImportFileHandle_ctor filename wavpackContext)
  end.

Definition WavPackImportFileHandle_GetStreamCount (self : WavPackImportFileHandle) : Z := 1.

Definition WavPackImportFileHandle_GetFileUncompressedBytes (self : WavPackImportFileHandle) : Z := 0.

(** ** Bytes of the tag buffers *)

Definition NUL : ascii := Ascii.zero.

(** The loop at lines 249-254: every NUL among the value bytes becomes a
    backslash. *)
Fixpoint replaceNul (s : string) : string :=
  match s with
  | EmptyString => EmptyString
  | String a s' => String (if Ascii.eqb a NUL then "\"%char else a) (replaceNul s')
  end.

(** ** Import *)

(** [#define SAMPLES_TO_READ 100000] *)
Definition SAMPLES_TO_READ : Z := 100000.

(** [uint32_t bufferSize = mNumChannels * SAMPLES_TO_READ;], the number of
    elements of [wavpackBuffer].  The library writes into this buffer and
    the loop reads from it; accesses beyond its end are not modelled. *)
Definition bufferSize (self : WavPackImportFileHandle) : Z :=
  uint32 (mNumChannels self * SAMPLES_TO_READ).

(** Lines 180-186: [mChannels.resize(mNumChannels)] and the loop that
    stores a new track in every slot.  A negative [int] converted to
    [size_t] exceeds the vector's maximal size and [resize] throws. *)
Definition createChannels (self : WavPackImportFileHandle) : option NewChannelGroup :=
  if mNumChannels self <? 0 then None
  else Some (replicate (Z.to_nat (mNumChannels self))
               (NewWaveTrack (mFormat self) (mSampleRate self))).

(** [wavpackBuffer[c]] *)
Definition bufferAt (wavpackBuffer : list Z) (c : Z) : Z :=
  nth (Z.to_nat c) wavpackBuffer 0.

(** The inner loop at lines 202-205: [iter] walks the channels while [chn]
    counts up to [mNumChannels] (compared as unsigned) and [c] advances
    through the buffer.  Returns the channels and the new [c]. *)
Fixpoint appendFrame (wavpackBuffer : list Z) (format : sampleFormat) (numChannels : Z)
    (chn c : Z) (iter : list WaveTrack) : list WaveTrack * Z :=
  match iter with
  | [] => ([], c)
  | track :: rest =>
      if chn <? uint32 numChannels then
        let '(rest', c') := appendFrame wavpackBuffer format numChannels (chn + 1) (c + 1) rest in
        (Append track (bufferAt wavpackBuffer c) format :: rest', c')
      else (iter, c)
  end.

(** The outer loop at lines 201-206, [for (c = 0; c < bound;)] with
    [bound = samplesRead * mNumChannels] computed in [uint32_t].  Every
    pass moves [c] forward by the number of channels, so [bound] passes
    are enough. *)
Fixpoint deinterleave (passes : nat) (wavpackBuffer : list Z) (format : sampleFormat)
    (numChannels bound c : Z) (channels : list WaveTrack) : list WaveTrack :=
  match passes with
  | O => channels
  | S passes' =>
      if c <? bound then
        let '(channels', c') := appendFrame wavpackBuffer format numChannels 0 c channels in
        deinterleave passes' wavpackBuffer format numChannels bound c' channels'
      else channels
  end.

(** The variables of the decode loop (the buffer is rewritten by every
    library call before it is read, so its contents need not be kept). *)
Record DecodeState : Type := {
  dsContext : WavpackContext;
  dsChannels : NewChannelGroup;
  dsProgress : ProgressDialog;
  totalSamplesRead : Z;
  samplesRead : Z;
  updateResult : ProgressResult
}.

(** One pass through the body of the [do ... while] loop, lines 199-209. *)
Definition decodeBody (format : sampleFormat) (numChannels : Z) (st : DecodeState)
  : DecodeState :=
  let '(wpc, wavpackBuffer, samplesRead) :=
    WavpackUnpackSamples (dsContext st) SAMPLES_TO_READ in
  let bound := uint32 (samplesRead * uint32 numChannels) in
  let channels :=
    deinterleave (Z.to_nat bound) wavpackBuffer format numChannels bound 0 (dsChannels st) in
  let total := uint32 (totalSamplesRead st + samplesRead) in
  let '(progress, result) := Update (dsProgress st) in
  {| dsContext := wpc; dsChannels := channels; dsProgress := progress;
     totalSamplesRead := total; samplesRead := samplesRead; updateResult := result |}.

(** [while (updateResult == ProgressResult::Success && samplesRead != 0)] *)
Definition decodeAgain (st : DecodeState) : bool :=
  bool_decide (updateResult st = Success) && negb (samplesRead st =? 0).

(** The [do ... while] loop at lines 198-210.  [None]: the loop is still
    running after [fuel] iterations. *)
Fixpoint decodeLoop (fuel : nat) (format : sampleFormat) (numChannels : Z)
    (st : DecodeState) : option DecodeState :=
  match fuel with
  | O => None
  | S fuel' =>
      let st' := decodeBody format numChannels st in
      if decodeAgain st' then decodeLoop fuel' format numChannels st' else Some st'
  end.

(** The state in which the loop is entered, lines 190-196. *)
Definition decodeStart (wpc : WavpackContext) (channels : NewChannelGroup)
    (progress : ProgressDialog) : DecodeState :=
  {| dsContext := wpc; dsChannels := channels; dsProgress := progress;
     totalSamplesRead := 0; samplesRead := 0; updateResult := Success |}.

(** Lines 213-214: the completeness check. *)
Definition completenessCheck (numSamples : Z) (st : DecodeState) : ProgressResult :=
  if negb (bool_decide (updateResult st = Stopped)) && (totalSamplesRead st <? numSamples)
  then Failed else updateResult st.

(** The body of the tag loop, lines 233-268, for the item at index [i]. *)
Definition importTagItem (apeTag : bool) (wpc : WavpackContext) (i : Z) (tags : Tags) : Tags :=
  let item := WavpackGetTagItemIndexed wpc i in
  let name := UTF8CTOWX item in
  let itemValue := WavpackGetTagItem wpc item in
  let itemValue := if apeTag then replaceNul itemValue else itemValue in
  let value := UTF8CTOWX itemValue in
  let name :=
    if bool_decide (Upper name = wxT "DATE") && negb (HasTag TAG_YEAR tags)
    then (if (wxString_length value =? 4)%nat && ToLong value then TAG_YEAR else name)
    else name in
  SetTag name value tags.

(** [for (int i = ...; i < numItems; i++)] with [count] items left. *)
Fixpoint tagLoop (count : nat) (apeTag : bool) (wpc : WavpackContext) (i : Z) (tags : Tags) : Tags :=
  match count with
  | O => tags
  | S count' => tagLoop count' apeTag wpc (i + 1) (importTagItem apeTag wpc i tags)
  end.

(** Lines 225-271: copying the file's tags. *)
Definition importTags (wpc : WavpackContext) (tags : Tags) : Tags :=
  let wavpackMode := WavpackGetMode wpc in
  if negb (Z.land wavpackMode MODE_VALID_TAG =? 0) then
    let apeTag := negb (Z.land wavpackMode MODE_APETAG =? 0) in
    let numItems := WavpackGetNumTagItems wpc in
    if 0 <? numItems then
      tagLoop (Z.to_nat numItems) apeTag wpc 0 (Tags_Clear tags)
    else tags
  else tags.

(** How a call of [Import] ends: it returns a result, leaving the handle,
    [outTracks] and the tag store in some state, or an exception leaves
    the function. *)
Inductive Outcome : Type :=
  | Returned (result : ProgressResult) (self : WavPackImportFileHandle)
      (outTracks : TrackHolders) (tags : Tags)
  | Thrown.

Definition withState (self : WavPackImportFileHandle) (progress : ProgressDialog)
    (wpc : WavpackContext) (channels : NewChannelGroup) : WavPackImportFileHandle :=
  {| mFilename := mFilename self;
     mProgress := Some progress;
     mWavPackContext := wpc;
     mNumChannels := mNumChannels self;
     mSampleRate := mSampleRate self;
     mBitsPerSample := mBitsPerSample self;
     mBytesPerSample := mBytesPerSample self;
     mNumSamples := mNumSamples self;
     mChannels := channels;
     mFormat := mFormat self |}.

(** [WavPackImportFileHandle::Import].  [user] is the behaviour of the
    dialog that [CreateProgress] opens; [None] means the decode loop is
    still running after [fuel] iterations. *)
Definition WavPackImportFileHandle_Import (fuel : nat) (self : WavPackImportFileHandle)
    (user : nat -> ProgressResult) (outTracks : TrackHolders) (tags : Tags)
  : option Outcome :=
  let outTracks : TrackHolders := [] in
  let progress := CreateProgress user in
  match createChannels self with
  | None => Some Thrown
  | Some channels =>
      match decodeLoop fuel (mFormat self) (mNumChannels self)
              (decodeStart (mWavPackContext self) channels progress) with
      | None => None
      | Some st =>
          let result := completenessCheck (mNumSamples self) st in
          if bool_decide (result = Failed) || bool_decide (result = Cancelled) then
            Some (Returned result
                    (withState self (dsProgress st) (dsContext st) (dsChannels st))
                    outTracks tags)
          else
            let channels := map Flush (dsChannels st) in
            let '(channels, outTracks) :=
              match channels with
              | [] => (channels, outTracks)
              | _ :: _ => ([], outTracks ++ [channels])
              end in
            let tags := importTags (dsContext st) tags in
            Some (Returned result
                    (withState self (dsProgress st) (dsContext st) channels)
                    outTracks tags)
      end
  end.

(** ** What the file delivers *)

(** The number of frames the [k]-th call of [WavpackUnpackSamples] returns. *)
Definition frames (wpc : WavpackContext) (k : nat) : Z :=
  uint32 (urCount (wpDecoder wpc k)).

(** The frames returned by the first [k] calls together. *)
Fixpoint framesRead (wpc : WavpackContext) (k : nat) : Z :=
  match k with
  | O => 0
  | S k' => framesRead wpc k' + frames wpc k'
  end.

(** The decode loop leaves after pass [K] (counted from 0) and not before:
    every earlier pass saw [Success] and a non-empty chunk, and pass [K]
    saw another answer of the dialog or an empty chunk. *)
Definition stopsAt (wpc : WavpackContext) (user : nat -> ProgressResult) (K : nat) : Prop :=
  (forall j, (j < K)%nat -> user j = Success /\ frames wpc j <> 0) /\
  (user K <> Success \/ frames wpc K = 0).

(** The samples of channel [chn] among [count] interleaved frames of
    [numChannels] values each, starting at frame [first]: frame [f] keeps
    the channel's value at buffer element [f * numChannels + chn]. *)
Definition frameSamples (wavpackBuffer : list Z) (numChannels : Z) (chn first count : nat)
  : list Z :=
  map (fun f => bufferAt wavpackBuffer (Z.of_nat f * numChannels + Z.of_nat chn))
      (seq first count).

(** The samples of channel [chn] in the chunk of the [k]-th call. *)
Definition chunkSamples (wpc : WavpackContext) (numChannels : Z) (chn k : nat) : list Z :=
  frameSamples (urBuffer (wpDecoder wpc k)) numChannels chn 0 (Z.to_nat (frames wpc k)).

(** The samples of channel [chn] in the chunks of the first [calls] calls. *)
Definition decodedSamples (wpc : WavpackContext) (numChannels : Z) (chn calls : nat) : list Z :=
  List.concat (map (chunkSamples wpc numChannels chn) (seq 0 calls)).

Definition appendSamples (track : WaveTrack) (samples : list Z) : WaveTrack :=
  {| wtFormat := wtFormat track; wtRate := wtRate track;
     wtSamples := wtSamples track ++ samples; wtFlushed := wtFlushed track |}.

(** The channel group a handle ends up with after [calls] chunks. *)
Definition decodedChannels (self : WavPackImportFileHandle) (calls : nat) : NewChannelGroup :=
  map (fun chn =>
         {| wtFormat := mFormat self;
            wtRate := mSampleRate self;
            wtSamples := decodedSamples (mWavPackContext self) (mNumChannels self) chn calls;
            wtFlushed := true |})
      (seq 0 (Z.to_nat (mNumChannels self))).

(** [k] passes through the loop body. *)
Fixpoint runBody (k : nat) (format : sampleFormat) (numChannels : Z) (st : DecodeState)
  : DecodeState :=
  match k with
  | O => st
  | S k' => runBody k' format numChannels (decodeBody format numChannels st)
  end.

(** ** The end of an import *)

(** Lines 213-273: what [Import] does once the decode loop has ended in
    state [st]. *)
Definition importEnd (self : WavPackImportFileHandle) (tags : Tags) (st : DecodeState)
  : Outcome :=
  let result := completenessCheck (mNumSamples self) st in
  if bool_decide (result = Failed) || bool_decide (result = Cancelled) then
    Returned result (withState self (dsProgress st) (dsContext st) (dsChannels st)) [] tags
  else
    match map Flush (dsChannels st) with
    | [] =>
        Returned result (withState self (dsProgress st) (dsContext st) [])
          [] (importTags (dsContext st) tags)
    | track :: rest =>
        Returned result (withState self (dsProgress st) (dsContext st) [])
          [track :: rest] (importTags (dsContext st) tags)
    end.

(** The channels created at lines 180-186. *)
Definition newChannels (self : WavPackImportFileHandle) : NewChannelGroup :=
  replicate (Z.to_nat (mNumChannels self)) (NewWaveTrack (mFormat self) (mSampleRate self)).

(** The state of the decode loop after pass [K]. *)
Definition stateAfter (self : WavPackImportFileHandle) (user : nat -> ProgressResult)
    (K : nat) : DecodeState :=
  runBody (S K) (mFormat self) (mNumChannels self)
    (decodeStart (mWavPackContext self) (newChannels self) (CreateProgress user)).

(** The result [Import] returns in terms of the pass [K] at which the
    loop stopped. *)
Definition resultAfter (self : WavPackImportFileHandle) (user : nat -> ProgressResult)
    (K : nat) : ProgressResult :=
  if negb (bool_decide (user K = Stopped))
     && (uint32 (framesRead (mWavPackContext self) (S K)) <? mNumSamples self)
  then Failed else user K.

(** ** The tags of the file *)

(** The key and the value the tag loop reads for the item at index [i]:
    the text of the key, and the text of the value after the NULs of an
    APEv2 value have become backslashes. *)
Definition readTagItem (apeTag : bool) (wpc : WavpackContext) (i : Z) : wxString * wxString :=
  let item := WavpackGetTagItemIndexed wpc i in
  let itemValue := WavpackGetTagItem wpc item in
  (UTF8CTOWX item, UTF8CTOWX (if apeTag then replaceNul itemValue else itemValue)).

(** The items of the file's tag block, in index order. *)
Definition fileTagItems (wpc : WavpackContext) : list (wxString * wxString) :=
  let apeTag := negb (Z.land (WavpackGetMode wpc) MODE_APETAG =? 0) in
  map (fun i => readTagItem apeTag wpc (Z.of_nat i))
      (seq 0 (Z.to_nat (WavpackGetNumTagItems wpc))).

(** A date item that can stand for the year: the key is DATE in any case
    and the value is a number of length 4. *)
Definition isYear (name value : wxString) : bool :=
  bool_decide (Upper name = wxT "DATE")
  && ((wxString_length value =? 4)%nat && ToLong value).

(** The DATE-to-year renaming along a list of items: a date item that can
    stand for the year is stored under [TAG_YEAR] unless a year has been
    stored before it. *)
Fixpoint renameDates (hasYear : bool) (items : list (wxString * wxString))
  : list (wxString * wxString) :=
  match items with
  | [] => []
  | (name, value) :: rest =>
      let name' := if isYear name value && negb hasYear then TAG_YEAR else name in
      (name', value) :: renameDates (hasYear || bool_decide (name' = TAG_YEAR)) rest
  end.

Definition storedTagItems (wpc : WavpackContext) : list (wxString * wxString) :=
  renameDates false (fileTagItems wpc).

(** [SetTag] for every item of a list, in order. *)
Definition setTags (items : list (wxString * wxString)) (tags : Tags) : Tags :=
  fold_left (fun t item => SetTag item.1 item.2 t) items tags.

(** The NUL replacement in the words of the claims: the value bytes with
    a backslash in the place of every NUL. *)
Definition nulsAsBackslashes (raw : string) : string :=
  String.string_of_list_ascii
    (map (fun c => if Ascii.eqb c NUL then "\"%char else c) (String.list_ascii_of_string raw)).

(** The key of the item at index [i] as text. *)
Definition keyRead (wpc : WavpackContext) (i : Z) : wxString :=
  UTF8CTOWX (WavpackGetTagItemIndexed wpc i).

(** The value of the item at index [i] as text: the text of its value
    bytes, for an APEv2 tag after the NUL replacement. *)
Definition valueRead (apeTag : bool) (wpc : WavpackContext) (i : Z) : wxString :=
  let raw := WavpackGetTagItem wpc (WavpackGetTagItemIndexed wpc i) in
  UTF8CTOWX (if apeTag then nulsAsBackslashes raw else raw).

(** A key and a value that make a date standing for the year. *)
Definition yearDate (name value : wxString) : Prop :=
  Upper name = wxT "DATE" /\ wxString_length value = 4%nat /\ ToLong value = true.

(** [stored] lists, index by index, what is set for the items of the tag
    block of [wpc]: the value is the value read, and the key is the key
    read, except that a date standing for the year goes under [TAG_YEAR]
    when no earlier item of the list is stored under [TAG_YEAR]. *)
Definition tagItemsStored (wpc : WavpackContext) (stored : list (wxString * wxString))
  : Prop :=
  let apeTag := negb (Z.land (WavpackGetMode wpc) MODE_APETAG =? 0) in
  length stored = Z.to_nat (WavpackGetNumTagItems wpc) /\
  forall (i : nat) key value,
    stored !! i = Some (key, value) ->
    value = valueRead apeTag wpc (Z.of_nat i) /\
    let renamed :=
      yearDate (keyRead wpc (Z.of_nat i)) value /\
      forall (j : nat) entry, (j < i)%nat -> stored !! j = Some entry -> entry.1 <> TAG_YEAR in
    (renamed -> key = TAG_YEAR) /\
    (~ renamed -> key = keyRead wpc (Z.of_nat i)).

(** The store [tags'] holds, under every key, the value of the last item
    of [stored] with that key, and nothing else. *)
Definition holdsLastOf (stored : list (wxString * wxString)) (tags' : Tags) : Prop :=
  forall key value,
    tags' !! key = Some value <->
    exists i : nat,
      stored !! i = Some (key, value) /\
      forall (j : nat) entry, (i < j)%nat -> stored !! j = Some entry -> entry.1 <> key.

End Model.

(** ** The other methods of the plugin and of the handle *)

(** [#define DESC XO("WavPack files")] *)
Definition DESC : string := "WavPack files".

Definition WavPackImportPlugin_GetPluginFormatDescription : string := DESC.

Definition WavPackImportFileHandle_GetFileDescription (self : WavPackImportFileHandle)
  : string := DESC.

(** [GetStreamInfo] returns a static empty list. *)
Definition WavPackImportFileHandle_GetStreamInfo (self : WavPackImportFileHandle)
  : list string := [].

(** [SetStreamUsage] has an empty body. *)
Definition WavPackImportFileHandle_SetStreamUsage (self : WavPackImportFileHandle)
    (StreamID : Z) (Use : bool) : WavPackImportFileHandle := self.

(** ** Further vocabulary *)

(** [track'] is [track] with more samples appended and nothing else
    changed. *)
Definition extends (track track' : WaveTrack) : Prop :=
  wtFormat track' = wtFormat track /\
  wtRate track' = wtRate track /\
  wtFlushed track' = wtFlushed track /\
  exists more, wtSamples track' = wtSamples track ++ more.

(** Whether a text holds a NUL character. *)
Fixpoint hasNul (s : string) : bool :=
  match s with
  | EmptyString => false
  | String a s' => Ascii.eqb a NUL || hasNul s'
  end.

(** The metadata of a handle that [Import] has no reason to touch. *)
Definition sameMetadata (self self' : WavPackImportFileHandle) : Prop :=
  mFilename self' = mFilename self /\
  mNumChannels self' = mNumChannels self /\
  mSampleRate self' = mSampleRate self /\
  mBitsPerSample self' = mBitsPerSample self /\
  mBytesPerSample self' = mBytesPerSample self /\
  mNumSamples self' = mNumSamples self /\
  mFormat self' = mFormat self.


(** ** A text type for the examples

    Texts of ASCII characters, kept as their bytes.  On such texts the
    operations below are the ones of wxWidgets; the examples use no
    other text. *)

(** The bytes before the first NUL. *)
Fixpoint cstr (s : string) : string :=
  match s with
  | EmptyString => EmptyString
  | String a s' => if Ascii.eqb a NUL then EmptyString else String a (cstr s')
  end.

Definition toupper (c : ascii) : ascii :=
  let n := N_of_ascii c in
  if ((97 <=? n) && (n <=? 122))%N then ascii_of_N (n - 32) else c.

Fixpoint asciiUpper (s : string) : string :=
  match s with
  | EmptyString => EmptyString
  | String a s' => String (toupper a) (asciiUpper s')
  end.

Definition isspace (c : ascii) : bool :=
  let n := N_of_ascii c in
  ((n =? 32) || ((9 <=? n) && (n <=? 13)))%N.

Definition isdigit (c : ascii) : bool :=
  let n := N_of_ascii c in
  ((48 <=? n) && (n <=? 57))%N.

Fixpoint skipSpaces (s : string) : string :=
  match s with
  | String a s' => if isspace a then skipSpaces s' else s
  | EmptyString => s
  end.

Definition skipSign (s : string) : string :=
  match s with
  | String a s' => if (Ascii.eqb a "+" || Ascii.eqb a "-")%bool then s' else s
  | EmptyString => s
  end.

Fixpoint allDigits (s : string) : bool :=
  match s with
  | EmptyString => true
  | String a s' => isdigit a && allDigits s'
  end.

(** Base 10, for a text too short to leave the range of [long]: white
    space and a sign are skipped, at least one digit follows, and the
    digits reach the end of the text. *)
Definition asciiToLong (s : string) : bool :=
  let digits := skipSign (skipSpaces s) in
  negb (String.eqb digits EmptyString) && allDigits digits.

Definition asciiText : WxString :=
  {| wxString := string;
     wxString_eq_dec := _;
     wxString_countable := _;
     wxT := fun s => s;
     UTF8CTOWX := cstr;
     Upper := asciiUpper;
     wxString_length := String.length;
     ToLong := asciiToLong |}.

Section Examples.

#[local] Existing Instance asciiText.

(** ** A small file used to exercise the definitions

    Two channels, 16 bits, two frames delivered by the first library call,
    and an APEv2 tag with a title and a date. *)

Definition exampleDecoder (k : nat) : UnpackReply :=
  match k with
  | O => {| urBuffer := [10; 20; 11; 21]; urCount := 2 |}
  | S _ => {| urBuffer := [10; 20; 11; 21]; urCount := 0 |}
  end.

Definition exampleFile : WavpackContext :=
  {| wpNumChannels := 2;
     wpSampleRate := 44100;
     wpBitsPerSample := 16;
     wpBytesPerSample := 2;
     wpNumSamples64 := 2;
     wpMode := Z.lor MODE_VALID_TAG MODE_APETAG;
     wpNumTagItems := 2;
     wpTagItemIndexed := fun i => if i =? 0 then "Title"%string else "Date"%string;
     wpTagItem := fun item => if String.eqb item "Title" then "Song"%string else "1999"%string;
     wpDecoder := exampleDecoder;
     wpRequested := [] |}.

Definition exampleHandle : WavPackImportFileHandle :=
  WavPackImportFileHandle_ctor "a.wv" exampleFile.

(** A user who lets the import run. *)
Definition patientUser (k : nat) : ProgressResult := Success.

(** A user who presses Stop (respectively Cancel) during the first update. *)
Definition stoppingUser (k : nat) : ProgressResult := Stopped.
Definition cancellingUser (k : nat) : ProgressResult := Cancelled.

(** The library on a disk that holds the example file as "a.wv". *)
Definition exampleLibrary : WavpackLibrary :=
  fun filename flags norm_offset =>
    if String.eqb filename "a.wv" then Some exampleFile else None.

(** The channel group of the example file. *)
Definition exampleTracks : TrackHolders :=
  [[ {| wtFormat := int16Sample; wtRate := 44100; wtSamples := [10; 11]; wtFlushed := true |};
     {| wtFormat := int16Sample; wtRate := 44100; wtSamples := [20; 21]; wtFlushed := true |} ]].

(** The tags of the example file as they are stored. *)
Definition exampleTags : Tags :=
  <["YEAR"%string := "1999"%string]> (<["Title"%string := "Song"%string]> ∅).

(** A tag store that is in use before the import. *)
Definition oldTags : Tags := <["ARTIST"%string := "Somebody"%string]> ∅.

(** The example file without its tag block. *)
Definition untaggedFile : WavpackContext :=
  {| wpNumChannels := 2;
     wpSampleRate := 44100;
     wpBitsPerSample := 16;
     wpBytesPerSample := 2;
     wpNumSamples64 := 2;
     wpMode := 0;
     wpNumTagItems := 0;
     wpTagItemIndexed := fun i => ""%string;
     wpTagItem := fun item => ""%string;
     wpDecoder := exampleDecoder;
     wpRequested := [] |}.

Definition untaggedHandle : WavPackImportFileHandle :=
  WavPackImportFileHandle_ctor "b.wv" untaggedFile.

(** ** More example files *)

(** The audio of the example file, without tags, in a file that declares
    [numSamples] frames. *)
Definition exampleFileDeclaring (numSamples : Z) : WavpackContext :=
  {| wpNumChannels := 2;
     wpSampleRate := 44100;
     wpBitsPerSample := 16;
     wpBytesPerSample := 2;
     wpNumSamples64 := numSamples;
     wpMode := 0;
     wpNumTagItems := 0;
     wpTagItemIndexed := fun i => ""%string;
     wpTagItem := fun item => ""%string;
     wpDecoder := exampleDecoder;
     wpRequested := [] |}.

(** A stream of unknown length and a file that has lost its end. *)
Definition streamHandle : WavPackImportFileHandle :=
  WavPackImportFileHandle_ctor "s.wv" (exampleFileDeclaring (-1)).

Definition truncatedHandle : WavPackImportFileHandle :=
  WavPackImportFileHandle_ctor "t.wv" (exampleFileDeclaring 5).

(** The example file in a file that declares five frames. *)
Definition longFile : WavpackContext :=
  {| wpNumChannels := 2;
     wpSampleRate := 44100;
     wpBitsPerSample := 16;
     wpBytesPerSample := 2;
     wpNumSamples64 := 5;
     wpMode := Z.lor MODE_VALID_TAG MODE_APETAG;
     wpNumTagItems := 2;
     wpTagItemIndexed := fun i => if i =? 0 then "Title"%string else "Date"%string;
     wpTagItem := fun item => if String.eqb item "Title" then "Song"%string else "1999"%string;
     wpDecoder := exampleDecoder;
     wpRequested := [] |}.

Definition longHandle : WavPackImportFileHandle :=
  WavPackImportFileHandle_ctor "l.wv" longFile.

(** A value of two parts, separated by a NUL as in an APEv2 tag. *)
Definition rockPop : string := String.append "Rock" (String NUL "Pop").

(** A file with an APEv2 tag of two items: a genre with two values and a
    date. *)
Definition multiFile : WavpackContext :=
  {| wpNumChannels := 2;
     wpSampleRate := 44100;
     wpBitsPerSample := 16;
     wpBytesPerSample := 2;
     wpNumSamples64 := 2;
     wpMode := Z.lor MODE_VALID_TAG MODE_APETAG;
     wpNumTagItems := 2;
     wpTagItemIndexed := fun i => if i =? 0 then "Genre"%string else "Date"%string;
     wpTagItem := fun item => if String.eqb item "Genre" then rockPop else "1999"%string;
     wpDecoder := exampleDecoder;
     wpRequested := [] |}.

Definition multiHandle : WavPackImportFileHandle :=
  WavPackImportFileHandle_ctor "m.wv" multiFile.

(** The tags of that file as they are stored. *)
Definition multiTags : Tags :=
  <["YEAR"%string := "1999"%string]> (<["Genre"%string := "Rock\Pop"%string]> ∅).

(** A file with an APEv2 tag of two items: a date and then a year. *)
Definition clashFile : WavpackContext :=
  {| wpNumChannels := 2;
     wpSampleRate := 44100;
     wpBitsPerSample := 16;
     wpBytesPerSample := 2;
     wpNumSamples64 := 2;
     wpMode := Z.lor MODE_VALID_TAG MODE_APETAG;
     wpNumTagItems := 2;
     wpTagItemIndexed := fun i => if i =? 0 then "Date"%string else "YEAR"%string;
     wpTagItem := fun item => if String.eqb item "Date" then "1999"%string else "2000"%string;
     wpDecoder := exampleDecoder;
     wpRequested := [] |}.

Definition clashHandle : WavPackImportFileHandle :=
  WavPackImportFileHandle_ctor "c.wv" clashFile.

(** The store after the import of that file. *)
Definition clashTags : Tags := <["YEAR"%string := "2000"%string]> ∅.

End Examples.

(** * Part II: lemmas and properties *)

Section Properties.

Context {W : WxString}.

(** ** Machine integers *)

Lemma uint32_range x : 0 <= uint32 x < 2 ^ 32.
Proof. unfold uint32. apply Z.mod_pos_bound. lia. Qed.

Lemma uint32_small x : 0 <= x < 2 ^ 32 -> uint32 x = x.
Proof. intros H. unfold uint32. apply Z.mod_small. exact H. Qed.

Lemma uint32_add_l x y : uint32 (uint32 x + y) = uint32 (x + y).
Proof. unfold uint32. apply Zplus_mod_idemp_l. Qed.

(** ** Deinterleaving one chunk *)

Lemma imap_imap {A B C} (f : nat -> B -> C) (g : nat -> A -> B) (l : list A) :
  imap f (imap g l) = imap (fun i x => f i (g i x)) l.
Proof.
  revert f g. induction l as [|x l IH]; intros f g; simpl; [reflexivity|].
  f_equal. apply IH.
Qed.

Lemma imap_replicate {A B} (f : nat -> A -> B) (n : nat) (x : A) :
  imap f (replicate n x) = map (fun i => f i x) (seq 0 n).
Proof.
  revert f. induction n as [|n IH]; intros f; simpl; [reflexivity|].
  f_equal. rewrite IH. rewrite <- seq_shift, map_map. reflexivity.
Qed.

Lemma imap_fixed {A} (f : nat -> A -> A) (l : list A) :
  (forall i x, f i x = x) -> imap f l = l.
Proof.
  revert f. induction l as [|x l IH]; intros f Hf; simpl; [reflexivity|].
  rewrite Hf. f_equal. apply IH. intros i y. apply Hf.
Qed.

Lemma appendSamples_nil track : appendSamples track [] = track.
Proof. destruct track. unfold appendSamples. simpl. rewrite app_nil_r. reflexivity. Qed.

Lemma appendSamples_Append track x format xs :
  appendSamples (Append track x format) xs = appendSamples track (x :: xs).
Proof. unfold appendSamples, Append. simpl. rewrite <- app_assoc. reflexivity. Qed.

Lemma appendSamples_app track xs ys :
  appendSamples (appendSamples track xs) ys = appendSamples track (xs ++ ys).
Proof. unfold appendSamples. simpl. rewrite <- app_assoc. reflexivity. Qed.

Lemma appendFrame_all wavpackBuffer format numChannels :
  forall (iter : list WaveTrack) chn c,
    0 <= chn ->
    chn + Z.of_nat (length iter) <= uint32 numChannels ->
    appendFrame wavpackBuffer format numChannels chn c iter =
    (imap (fun i track => Append track (bufferAt wavpackBuffer (c + Z.of_nat i)) format) iter,
     c + Z.of_nat (length iter)).
Proof.
  induction iter as [|track rest IH]; intros chn c Hchn Hlen.
  - simpl. f_equal. lia.
  - cbn [appendFrame]. cbn [length] in Hlen.
    destruct (Z.ltb_spec chn (uint32 numChannels)) as [_|Hge]; [|lia].
    rewrite IH by lia. cbn [imap length]. f_equal.
    + f_equal.
      * f_equal. f_equal. lia.
      * apply imap_ext. intros i x _. simpl. f_equal. f_equal. lia.
    + lia.
Qed.

Lemma deinterleave_frames wavpackBuffer format numChannels :
  0 < numChannels < 2 ^ 32 ->
  forall (r f0 passes : nat) (channels : list WaveTrack),
    length channels = Z.to_nat numChannels ->
    (r <= passes)%nat ->
    deinterleave passes wavpackBuffer format numChannels
      (Z.of_nat (f0 + r) * numChannels) (Z.of_nat f0 * numChannels) channels =
    imap (fun chn track =>
            appendSamples track (frameSamples wavpackBuffer numChannels chn f0 r))
         channels.
Proof.
  intros Hn. induction r as [|r IH]; intros f0 passes channels Hlen Hpasses.
  - replace (f0 + 0)%nat with f0 by lia.
    assert (imap (fun (chn : nat) track =>
                    appendSamples track (frameSamples wavpackBuffer numChannels chn f0 0))
                 channels = channels) as ->.
    { apply imap_fixed. intros i x. apply appendSamples_nil. }
    destruct passes; simpl; [reflexivity|].
    rewrite Z.ltb_irrefl. reflexivity.
  - destruct passes as [|passes]; [lia|]. cbn [deinterleave].
    destruct (Z.ltb_spec (Z.of_nat f0 * numChannels) (Z.of_nat (f0 + S r) * numChannels))
      as [_|Hge]; [|nia].
    rewrite appendFrame_all; [| lia | rewrite uint32_small; lia].
    replace (Z.of_nat f0 * numChannels + Z.of_nat (length channels))
      with (Z.of_nat (S f0) * numChannels) by lia.
    replace (f0 + S r)%nat with (S f0 + r)%nat by lia.
    rewrite IH; [| rewrite length_imap; exact Hlen | lia].
    rewrite imap_imap. apply imap_ext. intros i x _.
    rewrite appendSamples_Append. f_equal.
Qed.

(** A whole chunk of [count] frames, as the loop body deinterleaves it. *)
Lemma deinterleave_chunk wavpackBuffer format numChannels count (channels : list WaveTrack) :
  0 <= numChannels ->
  0 <= count ->
  count * numChannels < 2 ^ 32 ->
  numChannels < 2 ^ 32 ->
  length channels = Z.to_nat numChannels ->
  let bound := uint32 (count * uint32 numChannels) in
  deinterleave (Z.to_nat bound) wavpackBuffer format numChannels bound 0 channels =
  imap (fun chn track =>
          appendSamples track (frameSamples wavpackBuffer numChannels chn 0 (Z.to_nat count)))
       channels.
Proof.
  intros Hn Hcount Hprod Hn32 Hlen bound. subst bound.
  rewrite (uint32_small numChannels) by lia.
  rewrite uint32_small by nia.
  destruct (Z.eq_dec numChannels 0) as [->|Hpos].
  - destruct channels; [|simpl in Hlen; lia].
    rewrite Z.mul_0_r. reflexivity.
  - pose proof (deinterleave_frames wavpackBuffer format numChannels ltac:(lia)
                  (Z.to_nat count) 0%nat (Z.to_nat (count * numChannels)) channels Hlen) as H.
    cbn [Nat.add] in H. rewrite Z2Nat.id in H by lia.
    change (Z.of_nat 0 * numChannels) with 0 in H.
    apply H. nia.
Qed.

Lemma appendFrame_length wavpackBuffer format numChannels :
  forall (iter : list WaveTrack) chn c,
    length (appendFrame wavpackBuffer format numChannels chn c iter).1 = length iter.
Proof.
  induction iter as [|track rest IH]; intros chn c; [reflexivity|].
  cbn [appendFrame]. destruct (chn <? uint32 numChannels); [|reflexivity].
  specialize (IH (chn + 1) (c + 1)).
  destruct (appendFrame wavpackBuffer format numChannels (chn + 1) (c + 1) rest).
  cbn in *. rewrite IH. reflexivity.
Qed.

Lemma deinterleave_length wavpackBuffer format numChannels bound :
  forall passes c (channels : list WaveTrack),
    length (deinterleave passes wavpackBuffer format numChannels bound c channels) =
    length channels.
Proof.
  induction passes as [|passes IH]; intros c channels; [reflexivity|].
  cbn [deinterleave]. destruct (c <? bound); [|reflexivity].
  pose proof (appendFrame_length wavpackBuffer format numChannels channels 0 c) as Hlen.
  destruct (appendFrame wavpackBuffer format numChannels 0 c channels) as [channels' c'].
  rewrite IH. exact Hlen.
Qed.

(** ** The decode loop *)

Section DecodeLoop.

Variable format : sampleFormat.
Variable numChannels : Z.

Let body := decodeBody format numChannels.
Let run := fun k => runBody k format numChannels.

Lemma runBody_S_back k st : run (S k) st = body (run k st).
Proof.
  subst run body. revert st. induction k as [|k IH]; intros st; [reflexivity|].
  cbn [runBody] in *. rewrite IH. reflexivity.
Qed.

Lemma runBody_decoder k : forall st j,
  wpDecoder (dsContext (run k st)) j = wpDecoder (dsContext st) (k + j)%nat.
Proof.
  subst run. induction k as [|k IH]; intros st j; [reflexivity|].
  cbn [runBody]. rewrite IH. reflexivity.
Qed.

Lemma runBody_requested k : forall st,
  wpRequested (dsContext (run k st)) =
  wpRequested (dsContext st) ++ replicate k SAMPLES_TO_READ.
Proof.
  subst run. induction k as [|k IH]; intros st.
  - cbn. rewrite app_nil_r. reflexivity.
  - cbn [runBody]. rewrite IH. cbn. rewrite <- app_assoc. reflexivity.
Qed.

Lemma runBody_tag_fields k : forall st,
  let wpc := dsContext st in
  let wpc' := dsContext (run k st) in
  wpMode wpc' = wpMode wpc /\
  wpNumTagItems wpc' = wpNumTagItems wpc /\
  wpTagItemIndexed wpc' = wpTagItemIndexed wpc /\
  wpTagItem wpc' = wpTagItem wpc.
Proof.
  subst run. induction k as [|k IH]; intros st; [cbn; auto|].
  cbn [runBody]. cbn zeta in *. destruct (IH (decodeBody format numChannels st)) as (-> & -> & -> & ->).
  cbn. auto.
Qed.

Lemma runBody_answers k : forall st j,
  pdAnswers (dsProgress (run k st)) j = pdAnswers (dsProgress st) (k + j)%nat.
Proof.
  subst run. induction k as [|k IH]; intros st j; [reflexivity|].
  cbn [runBody]. rewrite IH. reflexivity.
Qed.

Lemma runBody_samplesRead k st :
  samplesRead (run (S k) st) = frames (dsContext st) k.
Proof.
  rewrite runBody_S_back. subst body. cbn. unfold frames.
  rewrite runBody_decoder. do 3 f_equal. lia.
Qed.

Lemma runBody_updateResult k st :
  updateResult (run (S k) st) = pdAnswers (dsProgress st) k.
Proof.
  rewrite runBody_S_back. subst body. cbn.
  rewrite runBody_answers. f_equal. lia.
Qed.

Lemma runBody_total k st :
  0 <= totalSamplesRead st < 2 ^ 32 ->
  totalSamplesRead (run k st) =
  uint32 (totalSamplesRead st + framesRead (dsContext st) k).
Proof.
  intros Hrange. induction k as [|k IH].
  - cbn. rewrite Z.add_0_r, uint32_small; [reflexivity | exact Hrange].
  - rewrite runBody_S_back. subst body. cbn. rewrite IH.
    rewrite uint32_add_l. f_equal. unfold frames.
    rewrite runBody_decoder. replace (k + 0)%nat with k by lia. lia.
Qed.

Lemma decodeAgain_body st :
  decodeAgain (body st) = true <->
  pdAnswers (dsProgress st) 0%nat = Success /\ frames (dsContext st) 0 <> 0.
Proof.
  subst body. unfold decodeAgain. cbn.
  rewrite andb_true_iff, bool_decide_eq_true, negb_true_iff, Z.eqb_neq.
  reflexivity.
Qed.

Lemma stopsAt_S wpc user K :
  user 0%nat = Success -> frames wpc 0 <> 0 ->
  stopsAt wpc user (S K) <->
  (forall j, (j < K)%nat -> user (S j) = Success /\ frames wpc (S j) <> 0) /\
  (user (S K) <> Success \/ frames wpc (S K) = 0).
Proof.
  intros Hu Hf. unfold stopsAt. split; intros [Hbefore Hat]; split; try exact Hat.
  - intros j Hj. apply Hbefore. lia.
  - intros [|j] Hj; [auto|]. apply Hbefore. lia.
Qed.

(** Enough fuel lets the loop reach the pass at which it stops. *)
Lemma decodeLoop_stops K : forall fuel st,
  stopsAt (dsContext st) (pdAnswers (dsProgress st)) K ->
  (K < fuel)%nat ->
  decodeLoop fuel format numChannels st = Some (run (S K) st).
Proof.
  induction K as [|K IH]; intros fuel st Hstop Hfuel;
    (destruct fuel as [|fuel]; [lia|]); cbn [decodeLoop].
  - destruct (decodeAgain (decodeBody format numChannels st)) eqn:Hagain; [|reflexivity].
    apply decodeAgain_body in Hagain. destruct Hagain as [Hu Hf].
    destruct Hstop as [_ [Hne|Hz]]; [destruct (Hne Hu) | destruct (Hf Hz)].
  - assert (decodeAgain (decodeBody format numChannels st) = true) as Hagain.
    { apply decodeAgain_body. apply (proj1 Hstop). lia. }
    rewrite Hagain. apply decodeAgain_body in Hagain. destruct Hagain as [Hu Hf].
    subst run. cbn [runBody].
    apply (IH fuel (decodeBody format numChannels st)); [|lia].
    apply stopsAt_S in Hstop; [|assumption..]. exact Hstop.
Qed.

(** A loop that has ended has stopped at some pass below the fuel. *)
Lemma decodeLoop_returns fuel : forall st st',
  decodeLoop fuel format numChannels st = Some st' ->
  exists K, (K < fuel)%nat /\
            stopsAt (dsContext st) (pdAnswers (dsProgress st)) K /\
            st' = run (S K) st.
Proof.
  induction fuel as [|fuel IH]; intros st st' Hloop; [discriminate|].
  cbn [decodeLoop] in Hloop.
  destruct (decodeAgain (decodeBody format numChannels st)) eqn:Hagain.
  - apply IH in Hloop. destruct Hloop as (K & HK & Hstop & ->).
    apply decodeAgain_body in Hagain. destruct Hagain as [Hu Hf].
    exists (S K). split; [lia|]. split; [|reflexivity].
    apply stopsAt_S; [assumption..|]. exact Hstop.
  - injection Hloop as <-. exists 0%nat. split; [lia|]. split; [|reflexivity].
    split; [intros j Hj; lia|].
    destruct (decide (pdAnswers (dsProgress st) 0%nat = Success)) as [Hu|Hu]; [|left; exact Hu].
    destruct (Z.eq_dec (frames (dsContext st) 0) 0) as [Hf|Hf]; [right; exact Hf|].
    assert (decodeAgain (decodeBody format numChannels st) = true) as Habs
      by (apply decodeAgain_body; auto).
    congruence.
Qed.

(** The channels after [k] passes, when no product of a frame count and
    the channel count leaves the range of [uint32_t]. *)
Lemma runBody_channels k st :
  0 <= numChannels < 2 ^ 32 ->
  length (dsChannels st) = Z.to_nat numChannels ->
  (forall j, (j < k)%nat -> frames (dsContext st) j * numChannels < 2 ^ 32) ->
  dsChannels (run k st) =
  imap (fun chn track =>
          appendSamples track (decodedSamples (dsContext st) numChannels chn k))
       (dsChannels st).
Proof.
  intros Hn Hlen. induction k as [|k IH]; intros Hprod.
  - cbn. symmetry. apply imap_fixed. intros i x. apply appendSamples_nil.
  - rewrite runBody_S_back. subst body. unfold decodeBody.
    cbn [WavpackUnpackSamples Update dsChannels].
    specialize (IH ltac:(intros j Hj; apply Hprod; lia)).
    assert (wpDecoder (dsContext (run k st)) 0%nat = wpDecoder (dsContext st) k) as Hdec.
    { rewrite runBody_decoder. f_equal. lia. }
    rewrite Hdec. fold (frames (dsContext st) k).
    rewrite deinterleave_chunk.
    + rewrite IH, imap_imap. apply imap_ext. intros i x _.
      rewrite appendSamples_app. f_equal.
      unfold decodedSamples. rewrite seq_S, map_app, concat_app. cbn.
      rewrite app_nil_r. reflexivity.
    + lia.
    + apply uint32_range.
    + apply Hprod. lia.
    + lia.
    + rewrite IH, length_imap. exact Hlen.
Qed.

End DecodeLoop.

Lemma runBody_length format numChannels k :
  forall st, length (dsChannels (runBody k format numChannels st)) = length (dsChannels st).
Proof.
  induction k as [|k IH]; intros st; [reflexivity|].
  cbn [runBody]. rewrite IH. unfold decodeBody. cbn.
  apply deinterleave_length.
Qed.

(** ** Import as a whole *)

Lemma Import_unfold fuel self user outTracks tags :
  WavPackImportFileHandle_Import fuel self user outTracks tags =
  if mNumChannels self <? 0 then Some Thrown
  else option_map (importEnd self tags)
         (decodeLoop fuel (mFormat self) (mNumChannels self)
            (decodeStart (mWavPackContext self) (newChannels self) (CreateProgress user))).
Proof.
  unfold WavPackImportFileHandle_Import, createChannels, importEnd, newChannels.
  destruct (mNumChannels self <? 0); [reflexivity|].
  destruct (decodeLoop _ _ _ _) as [st|]; [|reflexivity]. cbn [option_map].
  destruct (_ || _); [reflexivity|].
  destruct (map Flush (dsChannels st)); reflexivity.
Qed.

(** With enough fuel [Import] runs through the pass at which the loop stops. *)
Lemma Import_stops fuel self user outTracks tags K :
  0 <= mNumChannels self ->
  stopsAt (mWavPackContext self) user K ->
  (K < fuel)%nat ->
  WavPackImportFileHandle_Import fuel self user outTracks tags =
  Some (importEnd self tags (stateAfter self user K)).
Proof.
  intros Hn Hstop Hfuel. rewrite Import_unfold.
  destruct (Z.ltb_spec (mNumChannels self) 0) as [Hneg|_]; [lia|].
  rewrite (decodeLoop_stops _ _ K); [reflexivity | exact Hstop | exact Hfuel].
Qed.

(** A call that returns went through such a pass. *)
Lemma Import_returns fuel self user outTracks tags result self' outTracks' tags' :
  WavPackImportFileHandle_Import fuel self user outTracks tags =
    Some (Returned result self' outTracks' tags') ->
  0 <= mNumChannels self /\
  exists K, (K < fuel)%nat /\ stopsAt (mWavPackContext self) user K /\
            importEnd self tags (stateAfter self user K) =
            Returned result self' outTracks' tags'.
Proof.
  rewrite Import_unfold.
  destruct (Z.ltb_spec (mNumChannels self) 0) as [Hneg|Hn]; [discriminate|].
  destruct (decodeLoop _ _ _ _) as [st|] eqn:Hloop; [|discriminate].
  cbn [option_map]. intros Hend. split; [exact Hn|].
  apply decodeLoop_returns in Hloop. destruct Hloop as (K & HK & Hstop & ->).
  exists K. split; [exact HK|]. split; [exact Hstop|].
  injection Hend as Hend. exact Hend.
Qed.

Lemma stateAfter_updateResult self user K :
  updateResult (stateAfter self user K) = user K.
Proof. unfold stateAfter. rewrite runBody_updateResult. reflexivity. Qed.

Lemma stateAfter_total self user K :
  totalSamplesRead (stateAfter self user K) =
  uint32 (framesRead (mWavPackContext self) (S K)).
Proof. unfold stateAfter. rewrite runBody_total; [reflexivity | cbn; lia]. Qed.

Lemma stateAfter_requested self user K :
  wpRequested (dsContext (stateAfter self user K)) =
  wpRequested (mWavPackContext self) ++ replicate (S K) SAMPLES_TO_READ.
Proof. unfold stateAfter. rewrite runBody_requested. reflexivity. Qed.

Lemma tagLoop_fields wpc wpc' apeTag :
  wpTagItemIndexed wpc' = wpTagItemIndexed wpc ->
  wpTagItem wpc' = wpTagItem wpc ->
  forall count i (tags : Tags),
    tagLoop count apeTag wpc' i tags = tagLoop count apeTag wpc i tags.
Proof.
  intros Hkey Hvalue. induction count as [|count IH]; intros i tags; [reflexivity|].
  cbn [tagLoop]. rewrite IH. f_equal.
  unfold importTagItem, WavpackGetTagItemIndexed, WavpackGetTagItem.
  rewrite Hkey, Hvalue. reflexivity.
Qed.

Lemma importTags_fields wpc wpc' tags :
  wpMode wpc' = wpMode wpc ->
  wpNumTagItems wpc' = wpNumTagItems wpc ->
  wpTagItemIndexed wpc' = wpTagItemIndexed wpc ->
  wpTagItem wpc' = wpTagItem wpc ->
  importTags wpc' tags = importTags wpc tags.
Proof.
  intros Hmode Hnum Hkey Hvalue.
  unfold importTags, WavpackGetMode, WavpackGetNumTagItems. rewrite Hmode, Hnum.
  destruct (negb _); [|reflexivity]. destruct (0 <? _); [|reflexivity].
  apply tagLoop_fields; assumption.
Qed.

Lemma stateAfter_importTags self user K tags :
  importTags (dsContext (stateAfter self user K)) tags =
  importTags (mWavPackContext self) tags.
Proof.
  unfold stateAfter.
  destruct (runBody_tag_fields (mFormat self) (mNumChannels self) (S K)
              (decodeStart (mWavPackContext self) (newChannels self) (CreateProgress user)))
    as (Hmode & Hnum & Hkey & Hvalue).
  apply importTags_fields; assumption.
Qed.

Lemma stateAfter_check self user K :
  completenessCheck (mNumSamples self) (stateAfter self user K) = resultAfter self user K.
Proof.
  unfold completenessCheck, resultAfter.
  rewrite stateAfter_updateResult, stateAfter_total. reflexivity.
Qed.

(** The four things a returning call hands back, in terms of [K]. *)
Lemma importEnd_stateAfter self user tags K result self' outTracks' tags' :
  importEnd self tags (stateAfter self user K) = Returned result self' outTracks' tags' ->
  result = resultAfter self user K /\
  mWavPackContext self' = dsContext (stateAfter self user K) /\
  (result = Failed \/ result = Cancelled -> outTracks' = [] /\ tags' = tags) /\
  (result <> Failed -> result <> Cancelled ->
     concat outTracks' = map Flush (dsChannels (stateAfter self user K)) /\
     (dsChannels (stateAfter self user K) <> [] ->
        outTracks' = [map Flush (dsChannels (stateAfter self user K))]) /\
     tags' = importTags (mWavPackContext self) tags).
Proof.
  unfold importEnd. rewrite stateAfter_check, stateAfter_importTags.
  destruct (bool_decide (resultAfter self user K = Failed)
            || bool_decide (resultAfter self user K = Cancelled)) eqn:Hfc.
  - apply orb_true_iff in Hfc. rewrite !bool_decide_eq_true in Hfc.
    intros [= <- <- <- <-].
    split; [reflexivity|]. split; [reflexivity|]. split; [auto|].
    intros HF HC. tauto.
  - apply orb_false_iff in Hfc. rewrite !bool_decide_eq_false in Hfc.
    destruct Hfc as [HF HC].
    destruct (dsChannels (stateAfter self user K)) as [|track rest] eqn:Hch; cbn [map];
      intros [= <- <- <- <-];
      (split; [reflexivity|]); (split; [reflexivity|]); (split; [tauto|]);
      intros _ _; (split; [|split; [|reflexivity]]).
    + reflexivity.
    + intros Hne. destruct Hne. reflexivity.
    + cbn. rewrite app_nil_r. reflexivity.
    + intros _. reflexivity.
Qed.

(** The loop stops no later than at the first pass that meets the exit
    condition. *)
Lemma stopsAt_first wpc user k :
  user k <> Success \/ frames wpc k = 0 ->
  exists K, (K <= k)%nat /\ stopsAt wpc user K.
Proof.
  intros Hexit.
  assert (forall m, (forall j, (j < m)%nat -> user j = Success /\ frames wpc j <> 0) \/
                    exists K, (K < m)%nat /\ stopsAt wpc user K) as Hscan.
  { induction m as [|m [Hall|(K & HK & Hstop)]].
    - left. intros j Hj. lia.
    - destruct (decide (user m = Success)) as [Hu|Hu].
      + destruct (Z.eq_dec (frames wpc m) 0) as [Hf|Hf].
        * right. exists m. split; [lia|]. split; [exact Hall | right; exact Hf].
        * left. intros j Hj. destruct (decide (j = m)) as [->|Hne]; [auto|].
          apply Hall. lia.
      + right. exists m. split; [lia|]. split; [exact Hall | left; exact Hu].
    - right. exists K. split; [lia | exact Hstop]. }
  destruct (Hscan k) as [Hall|(K & HK & Hstop)].
  - exists k. split; [lia|]. split; assumption.
  - exists K. split; [lia | exact Hstop].
Qed.

(** ** The channel group *)

Lemma stateAfter_length self user K :
  length (dsChannels (stateAfter self user K)) = Z.to_nat (mNumChannels self).
Proof.
  unfold stateAfter. rewrite runBody_length. cbn. unfold newChannels.
  apply length_replicate.
Qed.

(** When the buffer size is the intended product and the library never
    returns more frames than requested, the flushed channels hold the
    deinterleaved chunks. *)
Lemma stateAfter_channels self user K :
  bufferSize self = mNumChannels self * SAMPLES_TO_READ ->
  (forall k, frames (mWavPackContext self) k <= SAMPLES_TO_READ) ->
  map Flush (dsChannels (stateAfter self user K)) = decodedChannels self (S K).
Proof.
  intros Hsize Hcontract.
  pose proof (uint32_range (mNumChannels self * SAMPLES_TO_READ)) as Hrange.
  fold (bufferSize self) in Hrange. rewrite Hsize in Hrange.
  unfold SAMPLES_TO_READ in *.
  unfold stateAfter. rewrite runBody_channels.
  - cbn [decodeStart dsChannels dsContext]. unfold newChannels, decodedChannels.
    rewrite imap_replicate, map_map. apply map_ext. intros chn. reflexivity.
  - lia.
  - cbn. unfold newChannels. apply length_replicate.
  - intros j _. cbn [decodeStart dsContext].
    specialize (Hcontract j).
    pose proof (uint32_range (urCount (wpDecoder (mWavPackContext self) j))) as Hf.
    fold (frames (mWavPackContext self) j) in Hf. nia.
Qed.

Lemma map_lookup {A B} (f : A -> B) (l : list A) (i : nat) :
  map f l !! i = f <$> (l !! i).
Proof.
  revert i. induction l as [|x l IH]; intros [|i]; try reflexivity. apply IH.
Qed.

Lemma Forall_map_all {A B} (P : B -> Prop) (f : A -> B) (l : list A) :
  (forall x, P (f x)) -> Forall P (map f l).
Proof. intros HP. induction l as [|x l IH]; constructor; auto. Qed.

Lemma decodedChannels_lookup self calls chn :
  (chn < Z.to_nat (mNumChannels self))%nat ->
  decodedChannels self calls !! chn =
  Some {| wtFormat := mFormat self;
          wtRate := mSampleRate self;
          wtSamples := decodedSamples (mWavPackContext self) (mNumChannels self) chn calls;
          wtFlushed := true |}.
Proof.
  intros Hchn. unfold decodedChannels.
  rewrite map_lookup, lookup_seq_lt by exact Hchn. reflexivity.
Qed.

Lemma chunkSamples_lookup wpc numChannels chn k (f : nat) :
  (f < Z.to_nat (frames wpc k))%nat ->
  chunkSamples wpc numChannels chn k !! f =
  Some (bufferAt (urBuffer (wpDecoder wpc k)) (Z.of_nat f * numChannels + Z.of_nat chn)).
Proof.
  intros Hf. unfold chunkSamples, frameSamples.
  rewrite map_lookup, lookup_seq_lt by exact Hf. reflexivity.
Qed.

Lemma chunkSamples_length wpc numChannels chn k :
  length (chunkSamples wpc numChannels chn k) = Z.to_nat (frames wpc k).
Proof. unfold chunkSamples, frameSamples. rewrite length_map, length_seq. reflexivity. Qed.

(** ** The tag store *)

Lemma HasTag_SetTag key name value (tags : Tags) :
  HasTag key (SetTag name value tags) = HasTag key tags || bool_decide (name = key).
Proof.
  unfold HasTag, SetTag. destruct (decide (name = key)) as [->|Hne].
  - rewrite lookup_insert_eq, (bool_decide_eq_true_2 (key = key)), orb_true_r by reflexivity.
    apply bool_decide_eq_true_2. eauto.
  - rewrite lookup_insert_ne, (bool_decide_eq_false_2 (name = key)), orb_false_r by exact Hne.
    reflexivity.
Qed.

Lemma importTagItem_read apeTag wpc i (tags : Tags) :
  importTagItem apeTag wpc i tags =
  SetTag (if isYear (readTagItem apeTag wpc i).1 (readTagItem apeTag wpc i).2
             && negb (HasTag TAG_YEAR tags)
          then TAG_YEAR else (readTagItem apeTag wpc i).1)
         (readTagItem apeTag wpc i).2 tags.
Proof.
  unfold importTagItem, readTagItem, isYear. cbn [fst snd].
  destruct (bool_decide (_ = wxT "DATE")), (HasTag TAG_YEAR tags),
    ((wxString_length _ =? 4)%nat && ToLong _); reflexivity.
Qed.

Lemma tagLoop_setTags apeTag wpc count : forall i (tags : Tags),
  tagLoop count apeTag wpc i tags =
  setTags (renameDates (HasTag TAG_YEAR tags)
             (map (fun j => readTagItem apeTag wpc (i + Z.of_nat j)) (seq 0 count)))
          tags.
Proof.
  induction count as [|count IH]; intros i tags; [reflexivity|].
  cbn [tagLoop]. rewrite IH, importTagItem_read.
  cbn [seq map]. rewrite <- seq_shift, map_map.
  replace (i + Z.of_nat 0) with i by lia.
  destruct (readTagItem apeTag wpc i) as [name value] eqn:Hread.
  cbn [renameDates fst snd setTags fold_left].
  rewrite HasTag_SetTag. f_equal. f_equal. apply map_ext. intros j. f_equal. lia.
Qed.

Lemma importTags_setTags wpc (tags : Tags) :
  Z.land (WavpackGetMode wpc) MODE_VALID_TAG <> 0 ->
  0 < WavpackGetNumTagItems wpc ->
  importTags wpc tags = setTags (storedTagItems wpc) (Tags_Clear tags).
Proof.
  intros Hvalid Hitems. unfold importTags.
  destruct (Z.eqb_spec (Z.land (WavpackGetMode wpc) MODE_VALID_TAG) 0) as [Hz|_];
    [contradiction|]. cbn [negb].
  destruct (Z.ltb_spec 0 (WavpackGetNumTagItems wpc)) as [_|Hle]; [|lia].
  rewrite tagLoop_setTags. reflexivity.
Qed.

Lemma setTags_other items : forall (tags : Tags) key,
  key ∉ items.*1 -> setTags items tags !! key = tags !! key.
Proof.
  induction items as [|[name value] items IH]; intros tags key Hkey; [reflexivity|].
  cbn in Hkey. apply not_elem_of_cons in Hkey. destruct Hkey as [Hne Hkey].
  change (setTags ((name, value) :: items) tags) with (setTags items (SetTag name value tags)).
  rewrite IH by exact Hkey. unfold SetTag. apply lookup_insert_ne. congruence.
Qed.

Lemma setTags_from items : forall (tags : Tags) key value,
  setTags items tags !! key = Some value ->
  (key, value) ∈ items \/ tags !! key = Some value.
Proof.
  induction items as [|[name v] items IH]; intros tags key value Hlook; [right; exact Hlook|].
  change (setTags ((name, v) :: items) tags) with (setTags items (SetTag name v tags)) in Hlook.
  apply IH in Hlook. destruct Hlook as [Hin|Hlook].
  - left. apply elem_of_cons. right. exact Hin.
  - unfold SetTag in Hlook. destruct (decide (name = key)) as [->|Hne].
    + rewrite lookup_insert_eq in Hlook. injection Hlook as ->.
      left. apply elem_of_cons. left. reflexivity.
    + rewrite lookup_insert_ne in Hlook by exact Hne. right. exact Hlook.
Qed.

Lemma setTags_keeps items : forall (tags : Tags) key,
  is_Some (tags !! key) -> is_Some (setTags items tags !! key).
Proof.
  induction items as [|[name v] items IH]; intros tags key Hsome; [exact Hsome|].
  change (setTags ((name, v) :: items) tags) with (setTags items (SetTag name v tags)). apply IH.
  unfold SetTag. destruct (decide (name = key)) as [->|Hne].
  - rewrite lookup_insert_eq. eauto.
  - rewrite lookup_insert_ne by exact Hne. exact Hsome.
Qed.

Lemma setTags_has items : forall (tags : Tags) key value,
  (key, value) ∈ items -> is_Some (setTags items tags !! key).
Proof.
  induction items as [|[name v] items IH]; intros tags key value Hin.
  - apply elem_of_nil in Hin. contradiction.
  - change (setTags ((name, v) :: items) tags) with (setTags items (SetTag name v tags)).
    apply elem_of_cons in Hin. destruct Hin as [[= -> ->]|Hin].
    + apply setTags_keeps. unfold SetTag. rewrite lookup_insert_eq. eauto.
    + apply (IH _ _ value). exact Hin.
Qed.

Lemma setTags_distinct items : forall (tags : Tags) key value,
  NoDup items.*1 -> (key, value) ∈ items -> setTags items tags !! key = Some value.
Proof.
  induction items as [|[name v] items IH]; intros tags key value Hnodup Hin.
  - apply elem_of_nil in Hin. contradiction.
  - cbn in Hnodup. apply NoDup_cons in Hnodup. destruct Hnodup as [Hfresh Hnodup].
    change (setTags ((name, v) :: items) tags) with (setTags items (SetTag name v tags)).
    apply elem_of_cons in Hin. destruct Hin as [[= -> ->]|Hin].
    + rewrite setTags_other by exact Hfresh. unfold SetTag. apply lookup_insert_eq.
    + apply IH; assumption.
Qed.

Lemma renameDates_length items : forall hasYear,
  length (renameDates hasYear items) = length items.
Proof.
  induction items as [|[name value] items IH]; intros hasYear; [reflexivity|].
  cbn. rewrite IH. reflexivity.
Qed.

Lemma renameDates_lookup items : forall hasYear (i : nat) name value,
  items !! i = Some (name, value) ->
  exists name',
    renameDates hasYear items !! i = Some (name', value) /\
    (name' = name \/ (name' = TAG_YEAR /\ isYear name value = true)).
Proof.
  induction items as [|[n v] items IH]; intros hasYear i name value Hlook; [discriminate|].
  destruct i as [|i]; cbn in Hlook.
  - injection Hlook as -> ->. cbn [renameDates]. eexists. split; [reflexivity|].
    destruct (isYear name value); cbn; [|auto]. destruct hasYear; cbn; auto.
  - cbn [renameDates]. apply (IH _ i name value Hlook).
Qed.

Lemma replaceNul_backslashes s : replaceNul s = nulsAsBackslashes s.
Proof.
  unfold nulsAsBackslashes. induction s as [|a s IH]; [reflexivity|].
  cbn [replaceNul String.list_ascii_of_string map String.string_of_list_ascii].
  rewrite IH. reflexivity.
Qed.

Lemma readTagItem_read apeTag wpc i :
  readTagItem apeTag wpc i = (keyRead wpc i, valueRead apeTag wpc i).
Proof.
  unfold readTagItem, keyRead, valueRead. rewrite replaceNul_backslashes. reflexivity.
Qed.

Lemma isYear_yearDate name value : isYear name value = true <-> yearDate name value.
Proof.
  unfold isYear, yearDate.
  rewrite !andb_true_iff, bool_decide_eq_true, Nat.eqb_eq. reflexivity.
Qed.

Lemma not_key_lookup (items : list (wxString * wxString)) key :
  key ∉ items.*1 <->
  forall (j : nat) entry, items !! j = Some entry -> entry.1 <> key.
Proof.
  split.
  - intros Hkey j entry Hj Heq. apply Hkey.
    apply list_elem_of_fmap. exists entry. split; [congruence|].
    apply (list_elem_of_lookup_2 _ j). exact Hj.
  - intros Hall Hin. apply list_elem_of_fmap in Hin. destruct Hin as (entry & -> & Hin).
    apply list_elem_of_lookup_1 in Hin. destruct Hin as [j Hj].
    apply (Hall j entry Hj). reflexivity.
Qed.

(** What the store holds after the items of a list have been set. *)
Lemma setTags_lookup items : forall (tags : Tags) key value,
  setTags items tags !! key = Some value <->
  (exists i : nat,
     items !! i = Some (key, value) /\
     forall (j : nat) entry, (i < j)%nat -> items !! j = Some entry -> entry.1 <> key) \/
  ((key ∉ items.*1) /\ tags !! key = Some value).
Proof.
  induction items as [|[name v] items IH]; intros tags key value.
  - cbn. split.
    + intros Hlook. right. split; [apply not_elem_of_nil | exact Hlook].
    + intros [(i & Hi & _)|[_ Hlook]]; [destruct i; discriminate | exact Hlook].
  - change (setTags ((name, v) :: items) tags) with (setTags items (SetTag name v tags)).
    rewrite IH. unfold SetTag. split.
    + intros [(i & Hi & Hlast)|[Hkey Hlook]].
      * left. exists (S i). split; [exact Hi|].
        intros [|j] entry Hj Hentry; [lia|]. apply (Hlast j entry); [lia | exact Hentry].
      * destruct (decide (name = key)) as [->|Hne].
        -- rewrite lookup_insert_eq in Hlook. injection Hlook as ->.
           left. exists 0%nat. split; [reflexivity|].
           intros [|j] entry Hj Hentry; [lia|].
           apply (proj1 (not_key_lookup items key) Hkey j entry Hentry).
        -- rewrite lookup_insert_ne in Hlook by exact Hne. right. split; [|exact Hlook].
           cbn. apply not_elem_of_cons. split; [congruence | exact Hkey].
    + intros [(i & Hi & Hlast)|[Hkey Hlook]].
      * destruct i as [|i].
        -- injection Hi as -> ->. right. split; [|apply lookup_insert_eq].
           apply not_key_lookup. intros j entry Hentry.
           apply (Hlast (S j) entry); [lia | exact Hentry].
        -- left. exists i. split; [exact Hi|].
           intros j entry Hj Hentry. apply (Hlast (S j) entry); [lia | exact Hentry].
      * cbn in Hkey. apply not_elem_of_cons in Hkey. destruct Hkey as [Hne Hkey].
        right. split; [exact Hkey|]. rewrite lookup_insert_ne by congruence. exact Hlook.
Qed.

Lemma setTags_holdsLast items (tags : Tags) :
  holdsLastOf items (setTags items (Tags_Clear tags)).
Proof.
  intros key value. rewrite setTags_lookup. unfold Tags_Clear. split.
  - intros [Hlast|[_ Hempty]]; [exact Hlast|]. rewrite lookup_empty in Hempty. discriminate.
  - intros Hlast. left. exact Hlast.
Qed.

(** The renaming rule of [renameDates], index by index. *)
Lemma renameDates_rule items : forall hasYear (i : nat) key value,
  renameDates hasYear items !! i = Some (key, value) ->
  exists name,
    items !! i = Some (name, value) /\
    let renamed :=
      yearDate name value /\ hasYear = false /\
      forall (j : nat) entry, (j < i)%nat ->
        renameDates hasYear items !! j = Some entry -> entry.1 <> TAG_YEAR in
    (renamed -> key = TAG_YEAR) /\ (~ renamed -> key = name).
Proof.
  induction items as [|[n v] items IH]; intros hasYear i key value Hlook; [discriminate|].
  cbn [renameDates] in *. destruct i as [|i].
  - injection Hlook as <- <-. exists n. split; [reflexivity|]. cbn zeta. split.
    + intros (Hdate & -> & _). apply isYear_yearDate in Hdate. rewrite Hdate. reflexivity.
    + intros Hnot. destruct (isYear n v) eqn:Hdate; [|reflexivity].
      destruct hasYear; [reflexivity|]. exfalso. apply Hnot.
      split; [apply isYear_yearDate; exact Hdate|]. split; [reflexivity|].
      intros j entry Hj. lia.
  - cbn [lookup list_lookup] in Hlook. apply IH in Hlook.
    destruct Hlook as (name & Hitem & Hyes & Hno). exists name. split; [exact Hitem|].
    cbn zeta in *.
    set (first := if isYear n v && negb hasYear then TAG_YEAR else n) in *.
    assert ((hasYear || bool_decide (first = TAG_YEAR) = false /\
             forall (j : nat) entry, (j < i)%nat ->
               renameDates (hasYear || bool_decide (first = TAG_YEAR)) items !! j = Some entry ->
               entry.1 <> TAG_YEAR) <->
            (hasYear = false /\
             forall (j : nat) entry, (j < S i)%nat ->
               ((first, v) :: renameDates (hasYear || bool_decide (first = TAG_YEAR)) items) !! j
                 = Some entry ->
               entry.1 <> TAG_YEAR)) as Hsame.
    { rewrite orb_false_iff, bool_decide_eq_false. split.
      - intros [[Hh Hfirst] Hearlier]. split; [exact Hh|].
        intros [|j] entry Hj Hentry.
        + injection Hentry as <-. exact Hfirst.
        + apply (Hearlier j entry); [lia | exact Hentry].
      - intros [Hh Hearlier]. split; [split; [exact Hh|]|].
        + apply (Hearlier 0%nat (first, v)); [lia | reflexivity].
        + intros j entry Hj Hentry. apply (Hearlier (S j) entry); [lia | exact Hentry]. }
    split.
    + intros (Hdate & Hrest). apply Hyes. split; [exact Hdate|]. apply Hsame. exact Hrest.
    + intros Hnot. apply Hno. intros (Hdate & Hrest). apply Hnot.
      split; [exact Hdate|]. apply Hsame. exact Hrest.
Qed.

Lemma storedTagItems_stored wpc : tagItemsStored wpc (storedTagItems wpc).
Proof.
  unfold tagItemsStored, storedTagItems. cbn zeta. split.
  - unfold fileTagItems. rewrite renameDates_length, length_map, length_seq. reflexivity.
  - intros i key value Hlook.
    apply renameDates_rule in Hlook. destruct Hlook as (name & Hitem & Hyes & Hno).
    unfold fileTagItems in Hitem. rewrite map_lookup in Hitem.
    destruct (seq 0 (Z.to_nat (WavpackGetNumTagItems wpc)) !! i) as [k|] eqn:Hseq;
      [|discriminate].
    apply lookup_seq in Hseq. destruct Hseq as [-> _]. cbn [Nat.add] in Hitem.
    cbn [fmap option_fmap option_map] in Hitem.
    rewrite readTagItem_read in Hitem. injection Hitem as <- <-.
    split; [reflexivity|]. cbn zeta in *. split.
    + intros (Hdate & Hearlier). apply Hyes. split; [exact Hdate|]. split; [reflexivity|].
      exact Hearlier.
    + intros Hnot. apply Hno. intros (Hdate & _ & Hearlier). apply Hnot.
      split; [exact Hdate | exact Hearlier].
Qed.

(** The tags after the tag block of a file with items has been copied. *)
Lemma importTags_copied wpc (tags : Tags) :
  Z.land (WavpackGetMode wpc) MODE_VALID_TAG <> 0 ->
  0 < WavpackGetNumTagItems wpc ->
  exists stored : list (wxString * wxString),
    tagItemsStored wpc stored /\
    importTags wpc tags = setTags stored (Tags_Clear tags) /\
    holdsLastOf stored (importTags wpc tags) /\
    (NoDup stored.*1 ->
     forall key value, importTags wpc tags !! key = Some value <-> (key, value) ∈ stored).
Proof.
  intros Hvalid Hitems. exists (storedTagItems wpc).
  rewrite (importTags_setTags wpc tags Hvalid Hitems).
  split; [apply storedTagItems_stored|]. split; [reflexivity|].
  split; [apply setTags_holdsLast|].
  intros Hnodup key value. split.
  - intros Hlook. apply setTags_from in Hlook.
    destruct Hlook as [Hin|Hold]; [exact Hin|].
    unfold Tags_Clear in Hold. rewrite lookup_empty in Hold. discriminate.
  - intros Hin. apply setTags_distinct; assumption.
Qed.

(** ** The properties of the plugin *)

(** C1: an import that does not fail and is not cancelled creates one
    track per channel, each with the sample rate the file reports and the
    format mapped from its bit depth, all in one group; channel [chn]
    holds, chunk after chunk, the buffer elements [f * n + chn] of the
    frames [f] of the chunk, in order. *)
Theorem Import_deinterleaves fuel filename wavpackContext user outTracks (tags : Tags)
    result self' outTracks' tags' :
  let self := WavPackImportFileHandle_ctor filename wavpackContext in
  let n := WavpackGetNumChannels wavpackContext in
  bufferSize self = n * SAMPLES_TO_READ ->
  (forall k, frames wavpackContext k <= SAMPLES_TO_READ) ->
  WavPackImportFileHandle_Import fuel self user outTracks tags =
    Some (Returned result self' outTracks' tags') ->
  result = Success \/ result = Stopped ->
  exists K, stopsAt wavpackContext user K /\
    (0 < n -> outTracks' = [concat outTracks']) /\
    length (concat outTracks') = Z.to_nat n /\
    forall chn, (chn < Z.to_nat n)%nat ->
      exists samples,
        concat outTracks' !! chn =
          Some {| wtFormat := mFormat self;
                  wtRate := WavpackGetSampleRate wavpackContext;
                  wtSamples := samples;
                  wtFlushed := true |} /\
        samples = concat (map (chunkSamples wavpackContext n chn) (seq 0 (S K))) /\
        forall k,
          length (chunkSamples wavpackContext n chn k) = Z.to_nat (frames wavpackContext k) /\
          forall f : nat, (f < Z.to_nat (frames wavpackContext k))%nat ->
            chunkSamples wavpackContext n chn k !! f =
            Some (bufferAt (urBuffer (wpDecoder wavpackContext k))
                    (Z.of_nat f * n + Z.of_nat chn)).
Proof.
  intros self n Hsize Hcontract Hret Hres.
  apply Import_returns in Hret. destruct Hret as (Hn & K & _ & Hstop & Hend).
  apply importEnd_stateAfter in Hend. destruct Hend as (_ & _ & _ & Hok).
  destruct Hok as (Hgroup & Hone & _); [destruct Hres; congruence..|].
  rewrite (stateAfter_channels self user K Hsize Hcontract) in Hgroup, Hone.
  exists K. split; [exact Hstop|]. rewrite Hgroup. split; [|split].
  - intros Hpos. apply Hone. intros Hnil.
    pose proof (stateAfter_length self user K) as Hlen.
    rewrite Hnil in Hlen. change (mNumChannels self) with n in Hlen. cbn in Hlen. lia.
  - unfold decodedChannels. rewrite length_map, length_seq. reflexivity.
  - intros chn Hchn. eexists. split; [apply (decodedChannels_lookup self (S K) chn Hchn)|].
    split; [reflexivity|]. intros k. split.
    + apply chunkSamples_length.
    + intros f Hf. apply chunkSamples_lookup. exact Hf.
Qed.

(** C2: when the decode loop ends with [Cancelled], or the completeness
    check turns the result into [Failed], [Import] returns that result at
    once, with [outTracks] empty and the tag store as it was; and no call
    that returns [Cancelled] or [Failed] has pushed a track or touched the
    tag store. *)
Theorem Import_cancel_fail fuel self user outTracks (tags : Tags) :
  (forall channels st,
     createChannels self = Some channels ->
     decodeLoop fuel (mFormat self) (mNumChannels self)
       (decodeStart (mWavPackContext self) channels (CreateProgress user)) = Some st ->
     updateResult st = Cancelled \/
     (updateResult st <> Stopped /\ totalSamplesRead st < mNumSamples self) ->
     exists result self',
       WavPackImportFileHandle_Import fuel self user outTracks tags =
         Some (Returned result self' [] tags) /\
       result = completenessCheck (mNumSamples self) st /\
       (result = Cancelled \/ result = Failed) /\
       (updateResult st <> Stopped /\ totalSamplesRead st < mNumSamples self ->
        result = Failed)) /\
  (forall result self' outTracks' tags',
     WavPackImportFileHandle_Import fuel self user outTracks tags =
       Some (Returned result self' outTracks' tags') ->
     result = Cancelled \/ result = Failed ->
     outTracks' = [] /\ tags' = tags).
Proof.
  split.
  - intros channels st Hch Hloop Hend.
    unfold WavPackImportFileHandle_Import. rewrite Hch, Hloop.
    assert (completenessCheck (mNumSamples self) st = Cancelled \/
            completenessCheck (mNumSamples self) st = Failed) as Hres.
    { unfold completenessCheck.
      destruct (negb (bool_decide (updateResult st = Stopped))
                && (totalSamplesRead st <? mNumSamples self)) eqn:Hcheck; [right; reflexivity|].
      destruct Hend as [Hc|[Hs Hlt]]; [left; exact Hc|].
      apply andb_false_iff in Hcheck. rewrite negb_false_iff, bool_decide_eq_true in Hcheck.
      rewrite Z.ltb_ge in Hcheck. destruct Hcheck; [contradiction | lia]. }
    assert (bool_decide (completenessCheck (mNumSamples self) st = Failed)
            || bool_decide (completenessCheck (mNumSamples self) st = Cancelled) = true) as ->.
    { apply orb_true_iff. rewrite !bool_decide_eq_true. tauto. }
    eexists _, _. split; [reflexivity|]. split; [reflexivity|]. split; [exact Hres|].
    intros [Hs Hlt]. unfold completenessCheck.
    rewrite (bool_decide_eq_false_2 _ Hs). cbn.
    destruct (Z.ltb_spec (totalSamplesRead st) (mNumSamples self)); [reflexivity | lia].
  - intros result self' outTracks' tags' Hret Hres.
    apply Import_returns in Hret. destruct Hret as (_ & K & _ & _ & Hend).
    apply importEnd_stateAfter in Hend. destruct Hend as (_ & _ & Hfail & _).
    apply Hfail. tauto.
Qed.

(** C3: the constructor maps the bit depth to the sample format: up to 16
    bits give [int16Sample], 17 to 24 bits give [int24Sample], and more
    than 24 bits give [floatSample]. *)
Theorem ctor_sample_format filename wavpackContext :
  let bits := WavpackGetBitsPerSample wavpackContext in
  let self := WavPackImportFileHandle_ctor filename wavpackContext in
  (bits <= 16 -> mFormat self = int16Sample) /\
  (17 <= bits <= 24 -> mFormat self = int24Sample) /\
  (24 < bits -> mFormat self = floatSample).
Proof.
  cbn. repeat split; intros Hbits.
  - destruct (Z.leb_spec (WavpackGetBitsPerSample wavpackContext) 16); [reflexivity | lia].
  - destruct (Z.leb_spec (WavpackGetBitsPerSample wavpackContext) 16); [lia|].
    destruct (Z.leb_spec (WavpackGetBitsPerSample wavpackContext) 24); [reflexivity | lia].
  - destruct (Z.leb_spec (WavpackGetBitsPerSample wavpackContext) 16); [lia|].
    destruct (Z.leb_spec (WavpackGetBitsPerSample wavpackContext) 24); [lia | reflexivity].
Qed.

(** C4, as amended: an import that neither fails nor is cancelled, of a
    file with a valid tag block of [numItems > 0] items, clears the tag
    store and then sets one tag per index [0 .. numItems-1], in order:
    the value is the one read from the file (every NUL of an APEv2 value
    replaced by a backslash), the key is the one read from the file, or
    [TAG_YEAR] for a date standing for the year when no year has been
    set before.  Afterwards the store holds, under every key that was
    set, the value of the last item set under that key, and nothing
    else; when the keys set differ from each other it holds exactly the
    items. *)
Theorem Import_copies_tags fuel self user outTracks (tags : Tags)
    result self' outTracks' tags' :
  let wpc := mWavPackContext self in
  WavPackImportFileHandle_Import fuel self user outTracks tags =
    Some (Returned result self' outTracks' tags') ->
  result <> Failed ->
  result <> Cancelled ->
  Z.land (WavpackGetMode wpc) MODE_VALID_TAG <> 0 ->
  0 < WavpackGetNumTagItems wpc ->
  exists stored : list (wxString * wxString),
    tagItemsStored wpc stored /\
    tags' = setTags stored (Tags_Clear tags) /\
    holdsLastOf stored tags' /\
    (NoDup stored.*1 ->
     forall key value, tags' !! key = Some value <-> (key, value) ∈ stored).
Proof.
  intros wpc Hret HF HC Hvalid Hitems.
  apply Import_returns in Hret. destruct Hret as (_ & K & _ & _ & Hend).
  apply importEnd_stateAfter in Hend. destruct Hend as (_ & _ & _ & Hok).
  destruct (Hok HF HC) as (_ & _ & ->).
  apply importTags_copied; assumption.
Qed.

(** C5: every pass of the decode loop requests [SAMPLES_TO_READ] = 100000
    frames, the loop leaves at the first pass at which the library returns
    0 frames or the dialog answers anything but [Success], and if the
    library returns 0 at some call then [Import] ends for every amount of
    fuel beyond that pass. *)
Theorem decode_loop_chunked self user outTracks (tags : Tags) :
  let wpc := mWavPackContext self in
  (forall fuel result self' outTracks' tags',
     WavPackImportFileHandle_Import fuel self user outTracks tags =
       Some (Returned result self' outTracks' tags') ->
     exists K, (K < fuel)%nat /\ stopsAt wpc user K /\
       wpRequested (mWavPackContext self') =
         wpRequested wpc ++ replicate (S K) SAMPLES_TO_READ /\
       Forall (fun samples => samples <= 100000) (replicate (S K) SAMPLES_TO_READ)) /\
  (forall k, frames wpc k = 0 ->
     exists K, (K <= k)%nat /\ stopsAt wpc user K /\
       forall fuel, (K < fuel)%nat ->
         exists outcome,
           WavPackImportFileHandle_Import fuel self user outTracks tags = Some outcome).
Proof.
  cbn zeta. split.
  - intros fuel result self' outTracks' tags' Hret.
    apply Import_returns in Hret. destruct Hret as (_ & K & HK & Hstop & Hend).
    apply importEnd_stateAfter in Hend. destruct Hend as (_ & Hctx & _).
    exists K. split; [exact HK|]. split; [exact Hstop|]. split.
    + rewrite Hctx. apply stateAfter_requested.
    + apply Forall_replicate. unfold SAMPLES_TO_READ. lia.
  - intros k Hzero.
    destruct (stopsAt_first (mWavPackContext self) user k (or_intror Hzero))
      as (K & HK & Hstop).
    exists K. split; [exact HK|]. split; [exact Hstop|].
    intros fuel Hfuel.
    destruct (Z.ltb_spec (mNumChannels self) 0) as [Hneg|Hn].
    + exists Thrown. rewrite Import_unfold.
      destruct (Z.ltb_spec (mNumChannels self) 0); [reflexivity | lia].
    + eexists. apply Import_stops; eassumption.
Qed.

(** C6: when the library's open call returns no context, [Open] returns
    no handle; when it returns a context, [Open] returns a handle, built
    for that file name and context. *)
Theorem Open_follows_library (WavpackOpenFileInput : WavpackLibrary) filename :
  let flags := Z.lor (Z.lor OPEN_WVC OPEN_FILE_UTF8) OPEN_TAGS in
  (WavpackOpenFileInput filename flags 0 = None ->
   WavPackImportPlugin_Open WavpackOpenFileInput filename = None) /\
  (forall wavpackContext,
     WavpackOpenFileInput filename flags 0 = Some wavpackContext ->
     exists handle,
       WavPackImportPlugin_Open WavpackOpenFileInput filename = Some handle /\
       mFilename handle = filename /\
       mWavPackContext handle = wavpackContext).
Proof.
  cbn zeta. unfold WavPackImportPlugin_Open. split.
  - intros ->. reflexivity.
  - intros wavpackContext ->. eexists. split; [reflexivity|]. split; reflexivity.
Qed.

(** C7: the plugin recognises exactly one extension, "wv", and every
    handle reports exactly one stream. *)
Theorem one_extension_one_stream :
  exts = ["wv"%string] /\
  mExtensions WavPackImportPlugin_ctor = ["wv"%string] /\
  forall self, WavPackImportFileHandle_GetStreamCount self = 1.
Proof. repeat split. Qed.

(** C8: the frames read are counted modulo 2^32; a call returns a result
    other than [Failed] only if the loop ended with [Stopped] or the
    wrapped count reaches the declared 64-bit frame count, so a file that
    declares 2^32 frames or more is never imported with [Success]. *)
Theorem completeness_check_wraps fuel self user outTracks (tags : Tags)
    result self' outTracks' tags' :
  WavPackImportFileHandle_Import fuel self user outTracks tags =
    Some (Returned result self' outTracks' tags') ->
  exists K, stopsAt (mWavPackContext self) user K /\
    let total := framesRead (mWavPackContext self) (S K) mod 2 ^ 32 in
    totalSamplesRead (stateAfter self user K) = total /\
    (user K <> Stopped -> total < mNumSamples self -> result = Failed) /\
    (result <> Failed -> user K = Stopped \/ mNumSamples self <= total) /\
    (2 ^ 32 <= mNumSamples self -> result = Failed \/ result = Stopped).
Proof.
  intros Hret. apply Import_returns in Hret. destruct Hret as (_ & K & _ & Hstop & Hend).
  apply importEnd_stateAfter in Hend. destruct Hend as (-> & _).
  exists K. split; [exact Hstop|]. cbn zeta.
  fold (uint32 (framesRead (mWavPackContext self) (S K))).
  pose proof (uint32_range (framesRead (mWavPackContext self) (S K))) as Hrange.
  split; [apply stateAfter_total|].
  unfold resultAfter.
  destruct (decide (user K = Stopped)) as [Hs|Hs].
  - rewrite (bool_decide_eq_true_2 _ Hs). cbn [negb andb].
    split; [intros Hne; contradiction|]. split; [intros _; left; exact Hs|].
    intros _. right. exact Hs.
  - rewrite (bool_decide_eq_false_2 _ Hs). cbn [negb andb].
    destruct (Z.ltb_spec (uint32 (framesRead (mWavPackContext self) (S K)))
                (mNumSamples self)) as [Hlt|Hge].
    + split; [reflexivity|]. split; [intros Hne; contradiction|].
      intros _. left. reflexivity.
    + split; [intros _ Hlt; lia|]. split; [intros _; right; exact Hge|].
      intros Hbig. lia.
Qed.

(** C9: when the dialog answers [Stopped] at pass [K] of the decode loop
    (all earlier passes having continued), [Import] leaves the loop there
    and returns [Stopped], however few frames have been read; the
    channels as decoded up to that pass are flushed and pushed as one
    group, and the tags are copied as in a complete import: for a valid
    tag block with items the store is cleared and every item is set, and
    otherwise the store stays as it was. *)
Theorem Import_stopped_keeps_partial fuel self user outTracks (tags : Tags) K :
  0 <= mNumChannels self ->
  (forall j, (j < K)%nat -> user j = Success /\ frames (mWavPackContext self) j <> 0) ->
  user K = Stopped ->
  (K < fuel)%nat ->
  exists self' outTracks' tags',
    WavPackImportFileHandle_Import fuel self user outTracks tags =
      Some (Returned Stopped self' outTracks' tags') /\
    tags' = importTags (mWavPackContext self) tags /\
    stopsAt (mWavPackContext self) user K /\
    let wpc := mWavPackContext self in
    let channels := dsChannels (stateAfter self user K) in
    length channels = Z.to_nat (mNumChannels self) /\
    concat outTracks' = map Flush channels /\
    (0 < mNumChannels self -> outTracks' = [map Flush channels]) /\
    Forall (fun track => wtFlushed track = true) (concat outTracks') /\
    (bufferSize self = mNumChannels self * SAMPLES_TO_READ ->
     (forall k, frames wpc k <= SAMPLES_TO_READ) ->
     map Flush channels = decodedChannels self (S K)) /\
    (Z.land (WavpackGetMode wpc) MODE_VALID_TAG <> 0 ->
     0 < WavpackGetNumTagItems wpc ->
     exists stored : list (wxString * wxString),
       tagItemsStored wpc stored /\
       tags' = setTags stored (Tags_Clear tags) /\
       holdsLastOf stored tags') /\
    (Z.land (WavpackGetMode wpc) MODE_VALID_TAG = 0 \/ WavpackGetNumTagItems wpc <= 0 ->
     tags' = tags).
Proof.
  intros Hn Hbefore Hstopped Hfuel.
  assert (stopsAt (mWavPackContext self) user K) as Hstop.
  { split; [exact Hbefore|]. left. rewrite Hstopped. discriminate. }
  rewrite (Import_stops fuel self user outTracks tags K Hn Hstop Hfuel).
  destruct (importEnd self tags (stateAfter self user K))
    as [result self' outTracks' tags'|] eqn:Hend.
  2:{ unfold importEnd in Hend. destruct (_ || _); [discriminate|].
      destruct (map Flush _); discriminate. }
  apply importEnd_stateAfter in Hend. destruct Hend as (Hres & _ & _ & Hok).
  assert (result = Stopped) as ->.
  { rewrite Hres. unfold resultAfter. rewrite (bool_decide_eq_true_2 _ Hstopped).
    cbn. exact Hstopped. }
  destruct Hok as (Hgroup & Hone & ->); [discriminate..|].
  exists self', outTracks', (importTags (mWavPackContext self) tags).
  split; [reflexivity|]. split; [reflexivity|]. split; [exact Hstop|].
  cbn zeta. pose proof (stateAfter_length self user K) as Hlen.
  split; [exact Hlen|]. split; [exact Hgroup|]. split; [|split; [|split; [|split]]].
  - intros Hpos. apply Hone. intros Hnil. rewrite Hnil in Hlen. cbn in Hlen. lia.
  - rewrite Hgroup. apply Forall_map_all. intros track. reflexivity.
  - apply stateAfter_channels.
  - intros Hvalid Hitems.
    destruct (importTags_copied (mWavPackContext self) tags Hvalid Hitems)
      as (stored & Hstored & Heq & Hlast & _).
    exists stored. split; [exact Hstored|]. split; [exact Heq | exact Hlast].
  - intros Hnone. unfold importTags. destruct Hnone as [-> | Hzero]; [reflexivity|].
    destruct (negb _); [|reflexivity].
    destruct (Z.ltb_spec 0 (WavpackGetNumTagItems (mWavPackContext self))); [lia | reflexivity].
Qed.

(** C10: when the mode of the file has no valid tag block, or the tag
    block has no items, a call of [Import] that returns leaves the tag
    store as it was. *)
Theorem Import_without_tags fuel self user outTracks (tags : Tags)
    result self' outTracks' tags' :
  WavPackImportFileHandle_Import fuel self user outTracks tags =
    Some (Returned result self' outTracks' tags') ->
  Z.land (WavpackGetMode (mWavPackContext self)) MODE_VALID_TAG = 0 \/
  WavpackGetNumTagItems (mWavPackContext self) = 0 ->
  tags' = tags.
Proof.
  intros Hret Hnone. apply Import_returns in Hret.
  destruct Hret as (_ & K & _ & _ & Hend).
  apply importEnd_stateAfter in Hend. destruct Hend as (_ & _ & Hfail & Hok).
  destruct (decide (result = Failed)) as [HF|HF]; [apply Hfail; auto|].
  destruct (decide (result = Cancelled)) as [HC|HC]; [apply Hfail; auto|].
  destruct (Hok HF HC) as (_ & _ & ->).
  unfold importTags. destruct Hnone as [-> | ->]; [reflexivity|].
  destruct (negb _); reflexivity.
Qed.

(** * Further properties of the code *)

(** ** The decode loop only appends *)

Lemma extends_refl track : extends track track.
Proof.
  repeat split. exists []. rewrite app_nil_r. reflexivity.
Qed.

Lemma extends_trans t1 t2 t3 : extends t1 t2 -> extends t2 t3 -> extends t1 t3.
Proof.
  intros (Hf & Hr & Hfl & more & Hs) (Hf' & Hr' & Hfl' & more' & Hs').
  repeat split; try congruence.
  exists (more ++ more'). rewrite Hs', Hs, app_assoc. reflexivity.
Qed.

Lemma extends_Append track sample format : extends track (Append track sample format).
Proof. repeat split. exists [sample]. reflexivity. Qed.

Lemma Forall2_extends_refl (l : list WaveTrack) : Forall2 extends l l.
Proof. induction l; constructor; auto using extends_refl. Qed.

Lemma Forall2_extends_trans (l1 l2 l3 : list WaveTrack) :
  Forall2 extends l1 l2 -> Forall2 extends l2 l3 -> Forall2 extends l1 l3.
Proof.
  intros H12. revert l3. induction H12 as [|x y l1 l2 Hxy _ IH]; intros l3 H23.
  - inversion H23. constructor.
  - inversion H23 as [|y' z l2' l3' Hyz Hrest]; subst.
    constructor; [eapply extends_trans; eassumption | apply IH; assumption].
Qed.

Lemma appendFrame_extends wavpackBuffer format numChannels :
  forall (iter : list WaveTrack) chn c,
    Forall2 extends iter (appendFrame wavpackBuffer format numChannels chn c iter).1.
Proof.
  induction iter as [|track rest IH]; intros chn c; [constructor|].
  cbn [appendFrame]. destruct (chn <? uint32 numChannels).
  - specialize (IH (chn + 1) (c + 1)).
    destruct (appendFrame wavpackBuffer format numChannels (chn + 1) (c + 1) rest).
    cbn in *. constructor; [apply extends_Append | exact IH].
  - apply Forall2_extends_refl.
Qed.

Lemma deinterleave_extends wavpackBuffer format numChannels bound :
  forall passes c (channels : list WaveTrack),
    Forall2 extends channels
      (deinterleave passes wavpackBuffer format numChannels bound c channels).
Proof.
  induction passes as [|passes IH]; intros c channels; [apply Forall2_extends_refl|].
  cbn [deinterleave]. destruct (c <? bound); [|apply Forall2_extends_refl].
  pose proof (appendFrame_extends wavpackBuffer format numChannels channels 0 c) as Hframe.
  destruct (appendFrame wavpackBuffer format numChannels 0 c channels) as [channels' c'].
  eapply Forall2_extends_trans; [exact Hframe | apply IH].
Qed.

Lemma decodeBody_extends format numChannels st :
  Forall2 extends (dsChannels st) (dsChannels (decodeBody format numChannels st)).
Proof. unfold decodeBody. cbn. apply deinterleave_extends. Qed.

(** X1: whatever the library returns (also a frame count whose product
    with the channel count leaves the range of [uint32_t]), the decode
    loop keeps the number of channels and only appends: every track keeps
    its format, its rate and its flush state, and the samples it held are
    a prefix of the samples it holds afterwards. *)
Theorem decodeLoop_only_appends fuel format numChannels : forall st st',
  decodeLoop fuel format numChannels st = Some st' ->
  Forall2 extends (dsChannels st) (dsChannels st').
Proof.
  induction fuel as [|fuel IH]; intros st st' Hloop; [discriminate|].
  cbn [decodeLoop] in Hloop.
  pose proof (decodeBody_extends format numChannels st) as Hbody.
  destruct (decodeAgain (decodeBody format numChannels st)).
  - eapply Forall2_extends_trans; [exact Hbody | apply IH; exact Hloop].
  - injection Hloop as <-. exact Hbody.
Qed.

(** ** The part of the buffer that is read *)

Lemma bufferAt_take (wavpackBuffer : list Z) (m : nat) (c : Z) :
  0 <= c < Z.of_nat m ->
  bufferAt (take m wavpackBuffer) c = bufferAt wavpackBuffer c.
Proof.
  intros Hc. unfold bufferAt.
  assert (Z.to_nat c < m)%nat as Hlt by lia.
  generalize dependent (Z.to_nat c). clear Hc c. intros i.
  revert wavpackBuffer i. induction m as [|m IH]; intros [|x l] [|i] Hi;
    try reflexivity; try lia.
  cbn. apply IH. lia.
Qed.

Lemma frameSamples_take wavpackBuffer numChannels (chn count m : nat) :
  0 <= numChannels ->
  Z.of_nat chn < numChannels ->
  Z.of_nat count * numChannels <= Z.of_nat m ->
  frameSamples (take m wavpackBuffer) numChannels chn 0 count =
  frameSamples wavpackBuffer numChannels chn 0 count.
Proof.
  intros Hn Hchn Hm. unfold frameSamples. apply map_ext_in.
  intros f Hf. apply in_seq in Hf. apply bufferAt_take. nia.
Qed.

(** X2: deinterleaving a chunk of [count] frames reads the first
    [count * numChannels] elements of the buffer and nothing else: two
    buffers that agree on these elements give the same channels, so
    whatever an earlier call left behind the reported frames is ignored. *)
Theorem deinterleave_reads_reported_frames buffer1 buffer2 format numChannels count
    (channels : list WaveTrack) :
  0 <= numChannels < 2 ^ 32 ->
  0 <= count ->
  count * numChannels < 2 ^ 32 ->
  length channels = Z.to_nat numChannels ->
  take (Z.to_nat (count * numChannels)) buffer1 =
    take (Z.to_nat (count * numChannels)) buffer2 ->
  let bound := uint32 (count * uint32 numChannels) in
  deinterleave (Z.to_nat bound) buffer1 format numChannels bound 0 channels =
  deinterleave (Z.to_nat bound) buffer2 format numChannels bound 0 channels.
Proof.
  intros Hn Hcount Hprod Hlen Htake bound. subst bound.
  rewrite !deinterleave_chunk by lia.
  apply imap_ext. intros chn track Hlook. f_equal.
  apply lookup_lt_Some in Hlook.
  rewrite <- (frameSamples_take buffer1 numChannels chn (Z.to_nat count)
                (Z.to_nat (count * numChannels))) by nia.
  rewrite <- (frameSamples_take buffer2 numChannels chn (Z.to_nat count)
                (Z.to_nat (count * numChannels))) by nia.
  rewrite Htake. reflexivity.
Qed.

(** ** The number of samples in a channel *)

Lemma frames_nonneg wpc k : 0 <= frames wpc k.
Proof. unfold frames. apply uint32_range. Qed.

Lemma framesRead_nonneg wpc k : 0 <= framesRead wpc k.
Proof.
  induction k as [|k IH]; cbn; [lia|]. pose proof (frames_nonneg wpc k). lia.
Qed.

Lemma decodedSamples_length wpc numChannels chn calls :
  Z.of_nat (length (decodedSamples wpc numChannels chn calls)) = framesRead wpc calls.
Proof.
  induction calls as [|calls IH]; [reflexivity|].
  unfold decodedSamples in *. rewrite seq_S, map_app, concat_app, length_app, Nat2Z.inj_add, IH.
  cbn. rewrite app_nil_r, chunkSamples_length.
  pose proof (frames_nonneg wpc calls). lia.
Qed.

(** X3: in an import that returns [Success] or [Stopped], all channels
    hold the same number of samples, the sum of the frame counts the
    library returned up to the pass at which the loop stopped. *)
Theorem Import_channels_equal_length fuel self user outTracks (tags : Tags)
    result self' outTracks' tags' :
  bufferSize self = mNumChannels self * SAMPLES_TO_READ ->
  (forall k, frames (mWavPackContext self) k <= SAMPLES_TO_READ) ->
  WavPackImportFileHandle_Import fuel self user outTracks tags =
    Some (Returned result self' outTracks' tags') ->
  result = Success \/ result = Stopped ->
  exists K, stopsAt (mWavPackContext self) user K /\
    Forall (fun track =>
              Z.of_nat (length (wtSamples track)) = framesRead (mWavPackContext self) (S K))
           (concat outTracks').
Proof.
  intros Hsize Hcontract Hret Hres.
  apply Import_returns in Hret. destruct Hret as (_ & K & _ & Hstop & Hend).
  apply importEnd_stateAfter in Hend. destruct Hend as (_ & _ & _ & Hok).
  destruct Hok as (Hgroup & _ & _); [destruct Hres; congruence..|].
  exists K. split; [exact Hstop|].
  rewrite Hgroup, (stateAfter_channels self user K Hsize Hcontract).
  unfold decodedChannels. apply Forall_map_all. intros chn. cbn [wtSamples].
  apply decodedSamples_length.
Qed.

(** ** What a call hands back *)

Lemma importEnd_handle self (tags : Tags) st :
  exists result channels outTracks' tags',
    importEnd self tags st =
    Returned result (withState self (dsProgress st) (dsContext st) channels)
      outTracks' tags'.
Proof.
  unfold importEnd. destruct (_ || _); [eauto 10|].
  destruct (map Flush (dsChannels st)); eauto 10.
Qed.

Lemma importEnd_outTracks self (tags : Tags) st result self' outTracks' tags' :
  importEnd self tags st = Returned result self' outTracks' tags' ->
  outTracks' = [] \/
  (result <> Failed /\ result <> Cancelled /\ dsChannels st <> [] /\
   outTracks' = [map Flush (dsChannels st)]).
Proof.
  unfold importEnd.
  destruct (bool_decide (completenessCheck (mNumSamples self) st = Failed)
            || bool_decide (completenessCheck (mNumSamples self) st = Cancelled)) eqn:Hfc.
  - intros [= <- <- <- <-]. left. reflexivity.
  - apply orb_false_iff in Hfc. rewrite !bool_decide_eq_false in Hfc.
    destruct (dsChannels st) as [|track rest]; cbn [map]; intros [= <- <- <- <-].
    + left. reflexivity.
    + right. repeat split; try tauto. discriminate.
Qed.

(** X4: a call that returns hands back no group at all or exactly one
    group, which then has one flushed track per channel and is not empty;
    a file without channels never yields a group, and a file with
    channels always does unless the result is [Failed] or [Cancelled]. *)
Theorem Import_at_most_one_group fuel self user outTracks (tags : Tags)
    result self' outTracks' tags' :
  WavPackImportFileHandle_Import fuel self user outTracks tags =
    Some (Returned result self' outTracks' tags') ->
  (outTracks' = [] \/
   exists group, outTracks' = [group] /\
     0 < mNumChannels self /\
     length group = Z.to_nat (mNumChannels self) /\
     Forall (fun track => wtFlushed track = true) group) /\
  (mNumChannels self = 0 -> outTracks' = []) /\
  (0 < mNumChannels self -> result <> Failed -> result <> Cancelled -> outTracks' <> []).
Proof.
  intros Hret. apply Import_returns in Hret. destruct Hret as (Hn & K & _ & _ & Hend).
  pose proof (stateAfter_length self user K) as Hlen.
  pose proof (importEnd_outTracks _ _ _ _ _ _ _ Hend) as Hout.
  apply importEnd_stateAfter in Hend. destruct Hend as (_ & _ & _ & Hok).
  assert (dsChannels (stateAfter self user K) <> [] <-> 0 < mNumChannels self) as Hne.
  { destruct (dsChannels (stateAfter self user K)); cbn in Hlen; split; intros H;
      try lia; try discriminate. contradiction. }
  destruct Hout as [->|(HF & HC & Hch & ->)].
  - split; [left; reflexivity|]. split; [reflexivity|].
    intros Hpos HF HC. destruct (Hok HF HC) as (_ & Hone & _).
    specialize (Hone (proj2 Hne Hpos)). discriminate.
  - split; [|split].
    + right. eexists. split; [reflexivity|]. split; [apply Hne; exact Hch|]. split.
      * rewrite length_map. exact Hlen.
      * apply Forall_map_all. reflexivity.
    + intros Hzero. apply Hne in Hch. lia.
    + intros _ _ _. discriminate.
Qed.

(** ** The handle after a call *)

(** X5: a call that returns leaves the metadata of the handle (file
    name, channel count, rate, bit depth, frame count, format) as it was;
    the library and the progress dialog have been consulted equally
    often, once per pass up to the pass [K] at which the loop stopped, so
    that their next answers are the ones numbered [K + 1]. *)
Theorem Import_keeps_metadata fuel self user outTracks (tags : Tags)
    result self' outTracks' tags' :
  WavPackImportFileHandle_Import fuel self user outTracks tags =
    Some (Returned result self' outTracks' tags') ->
  sameMetadata self self' /\
  exists K progress,
    stopsAt (mWavPackContext self) user K /\
    mProgress self' = Some progress /\
    (forall j, wpDecoder (mWavPackContext self') j =
               wpDecoder (mWavPackContext self) (S K + j)%nat) /\
    (forall j, pdAnswers progress j = user (S K + j)%nat).
Proof.
  intros Hret. apply Import_returns in Hret. destruct Hret as (_ & K & _ & Hstop & Hend).
  destruct (importEnd_handle self tags (stateAfter self user K))
    as (r & channels & o & t & Heq).
  rewrite Heq in Hend. injection Hend as _ <- _ _.
  split; [repeat split|]. cbn [withState mWavPackContext mProgress].
  exists K, (dsProgress (stateAfter self user K)).
  split; [exact Hstop|]. split; [reflexivity|]. split.
  - intros j. unfold stateAfter. rewrite runBody_decoder. reflexivity.
  - intros j. unfold stateAfter. rewrite runBody_answers. reflexivity.
Qed.

(** ** The result of a call *)

(** X6: when the file declares no frame count (the library reports -1) or
    a count of 0, the completeness check never fires: the call returns
    the last answer of the progress dialog. *)
Theorem Import_unknown_length fuel self user outTracks (tags : Tags)
    result self' outTracks' tags' :
  mNumSamples self <= 0 ->
  WavPackImportFileHandle_Import fuel self user outTracks tags =
    Some (Returned result self' outTracks' tags') ->
  exists K, stopsAt (mWavPackContext self) user K /\ result = user K.
Proof.
  intros Hunknown Hret.
  apply Import_returns in Hret. destruct Hret as (_ & K & _ & Hstop & Hend).
  apply importEnd_stateAfter in Hend. destruct Hend as (-> & _).
  exists K. split; [exact Hstop|]. unfold resultAfter.
  pose proof (uint32_range (framesRead (mWavPackContext self) (S K))) as Hrange.
  destruct (Z.ltb_spec (uint32 (framesRead (mWavPackContext self) (S K))) (mNumSamples self));
    [lia|]. rewrite andb_false_r. reflexivity.
Qed.

(** A call that ends below the declared frame count without [Stopped]. *)
Lemma Import_short_of_declared fuel self user outTracks (tags : Tags) K :
  0 <= mNumChannels self ->
  stopsAt (mWavPackContext self) user K ->
  (K < fuel)%nat ->
  user K <> Stopped ->
  framesRead (mWavPackContext self) (S K) mod 2 ^ 32 < mNumSamples self ->
  exists self',
    WavPackImportFileHandle_Import fuel self user outTracks tags =
      Some (Returned Failed self' [] tags).
Proof.
  intros Hn Hstop Hfuel Hns Hshort.
  rewrite (Import_stops fuel self user outTracks tags K Hn Hstop Hfuel).
  destruct (importEnd_handle self tags (stateAfter self user K))
    as (r & channels & o & t & Heq).
  rewrite Heq. apply importEnd_stateAfter in Heq. destruct Heq as (Hr & _ & Hfail & _).
  assert (r = Failed) as ->.
  { rewrite Hr. unfold resultAfter. rewrite (bool_decide_eq_false_2 _ Hns). cbn [negb andb].
    fold (uint32 (framesRead (mWavPackContext self) (S K))) in Hshort.
    destruct (Z.ltb_spec (uint32 (framesRead (mWavPackContext self) (S K))) (mNumSamples self));
      [reflexivity | lia]. }
  destruct Hfail as [-> ->]; [left; reflexivity|]. eexists. reflexivity.
Qed.

(** X7: an import that stops short of the declared frame count for any
    reason but [Stopped] (the library runs dry, or the user cancels)
    returns [Failed], hands back no track and leaves the tag store as it
    was. *)
Theorem Import_incomplete_fails fuel self user outTracks (tags : Tags) K :
  0 <= mNumChannels self ->
  stopsAt (mWavPackContext self) user K ->
  (K < fuel)%nat ->
  user K <> Stopped ->
  framesRead (mWavPackContext self) (S K) mod 2 ^ 32 < mNumSamples self ->
  exists self',
    WavPackImportFileHandle_Import fuel self user outTracks tags =
      Some (Returned Failed self' [] tags).
Proof.
  intros Hn Hstop Hfuel Hns Hshort.
  rewrite (Import_stops fuel self user outTracks tags K Hn Hstop Hfuel).
  destruct (importEnd_handle self tags (stateAfter self user K))
    as (r & channels & o & t & Heq).
  rewrite Heq. apply importEnd_stateAfter in Heq. destruct Heq as (Hr & _ & Hfail & _).
  assert (r = Failed) as ->.
  { rewrite Hr. unfold resultAfter. rewrite (bool_decide_eq_false_2 _ Hns). cbn [negb andb].
    fold (uint32 (framesRead (mWavPackContext self) (S K))) in Hshort.
    destruct (Z.ltb_spec (uint32 (framesRead (mWavPackContext self) (S K))) (mNumSamples self));
      [reflexivity | lia]. }
  destruct Hfail as [-> ->]; [left; reflexivity|]. eexists. reflexivity.
Qed.

(** X8: when the user lets the import run, the library returns its first
    empty chunk at pass [K], and the frames delivered until then are
    exactly the declared count (below 2^32), the call returns [Success]:
    it hands back the deinterleaved channels, each with as many samples
    as the file declares, and the tag store is the one the tag block
    gives. *)
Theorem Import_complete_file fuel self user outTracks (tags : Tags) K :
  bufferSize self = mNumChannels self * SAMPLES_TO_READ ->
  (forall k, frames (mWavPackContext self) k <= SAMPLES_TO_READ) ->
  (forall j, (j <= K)%nat -> user j = Success) ->
  (forall j, (j < K)%nat -> frames (mWavPackContext self) j <> 0) ->
  frames (mWavPackContext self) K = 0 ->
  framesRead (mWavPackContext self) K = mNumSamples self ->
  mNumSamples self < 2 ^ 32 ->
  (K < fuel)%nat ->
  exists self' outTracks',
    WavPackImportFileHandle_Import fuel self user outTracks tags =
      Some (Returned Success self' outTracks' (importTags (mWavPackContext self) tags)) /\
    concat outTracks' = decodedChannels self (S K) /\
    Forall (fun track => Z.of_nat (length (wtSamples track)) = mNumSamples self)
           (concat outTracks').
Proof.
  intros Hsize Hcontract Huser Hframes Hzero Hall Hsmall Hfuel.
  assert (0 <= mNumChannels self) as Hn.
  { pose proof (uint32_range (mNumChannels self * SAMPLES_TO_READ)) as Hrange.
    fold (bufferSize self) in Hrange. rewrite Hsize in Hrange.
    unfold SAMPLES_TO_READ in Hrange. lia. }
  assert (stopsAt (mWavPackContext self) user K) as Hstop.
  { split; [|right; exact Hzero]. intros j Hj. split; [apply Huser; lia | apply Hframes; exact Hj]. }
  rewrite (Import_stops fuel self user outTracks tags K Hn Hstop Hfuel).
  destruct (importEnd_handle self tags (stateAfter self user K))
    as (r & channels & o & t & Heq).
  rewrite Heq. apply importEnd_stateAfter in Heq. destruct Heq as (Hr & _ & _ & Hok).
  assert (r = Success) as ->.
  { rewrite Hr. unfold resultAfter. cbn [framesRead]. rewrite Hzero, Z.add_0_r, Hall.
    pose proof (framesRead_nonneg (mWavPackContext self) K) as Hpos.
    rewrite uint32_small by lia. rewrite Z.ltb_irrefl, andb_false_r.
    apply Huser. lia. }
  destruct Hok as (Hgroup & _ & ->); [discriminate..|].
  rewrite (stateAfter_channels self user K Hsize Hcontract) in Hgroup.
  eexists _, o. split; [reflexivity|]. split; [exact Hgroup|].
  rewrite Hgroup. unfold decodedChannels. apply Forall_map_all. intros chn. cbn [wtSamples].
  rewrite decodedSamples_length. cbn [framesRead]. lia.
Qed.

(** X9: [Import] does not rewind the decoder.  Once a first call has
    returned and the library has nothing more to deliver, a second call
    on the handle of a file that declares at least one frame returns
    [Failed] without a track, whatever the first call returned (unless
    the user presses Stop at once). *)
Theorem Import_twice_fails fuel fuel2 self user user2 outTracks outTracks2
    (tags tags2 : Tags) K :
  0 <= mNumChannels self ->
  stopsAt (mWavPackContext self) user K ->
  (K < fuel)%nat ->
  frames (mWavPackContext self) (S K) = 0 ->
  0 < mNumSamples self ->
  user2 0%nat <> Stopped ->
  (0 < fuel2)%nat ->
  exists result self' outTracks' tags',
    WavPackImportFileHandle_Import fuel self user outTracks tags =
      Some (Returned result self' outTracks' tags') /\
    exists self'',
      WavPackImportFileHandle_Import fuel2 self' user2 outTracks2 tags2 =
        Some (Returned Failed self'' [] tags2).
Proof.
  intros Hn Hstop Hfuel Hdry Hdeclared Huser2 Hfuel2.
  rewrite (Import_stops fuel self user outTracks tags K Hn Hstop Hfuel).
  destruct (importEnd_handle self tags (stateAfter self user K))
    as (r & channels & o & t & Heq).
  rewrite Heq. eexists _, _, _, _. split; [reflexivity|].
  set (self' := withState self (dsProgress (stateAfter self user K))
                  (dsContext (stateAfter self user K)) channels).
  assert (frames (mWavPackContext self') 0 = 0) as Hfirst.
  { unfold frames, self'. cbn [withState mWavPackContext]. unfold stateAfter.
    rewrite runBody_decoder. cbn [decodeStart dsContext].
    replace (S K + 0)%nat with (S K) by lia. exact Hdry. }
  apply (Import_short_of_declared fuel2 self' user2 outTracks2 tags2 0).
  - exact Hn.
  - split; [intros j Hj; lia | right; exact Hfirst].
  - exact Hfuel2.
  - exact Huser2.
  - cbn [framesRead]. rewrite Hfirst. cbn. exact Hdeclared.
Qed.

(** ** One tag item *)

(** X10: storing one tag item sets exactly one key and leaves every other
    key with what it had.  The key is [TAG_YEAR] exactly when the item is
    a date standing for the year (its key is DATE in any case and its
    value is a number of length 4) and the store has no year yet;
    otherwise it is the item's own key.  The value set is the value
    read. *)
Theorem importTagItem_stores_and_keeps apeTag wpc i (tags : Tags) :
  let name := keyRead wpc i in
  let value := valueRead apeTag wpc i in
  let tags' := importTagItem apeTag wpc i tags in
  let renamed := yearDate name value /\ tags !! TAG_YEAR = None in
  (renamed ->
   tags' !! TAG_YEAR = Some value /\
   forall key, key <> TAG_YEAR -> tags' !! key = tags !! key) /\
  (~ renamed ->
   tags' !! name = Some value /\
   forall key, key <> name -> tags' !! key = tags !! key).
Proof.
  cbn zeta. rewrite importTagItem_read, readTagItem_read. cbn [fst snd].
  unfold SetTag, HasTag.
  destruct (isYear (keyRead wpc i) (valueRead apeTag wpc i)) eqn:Hdate; cbn [andb].
  - apply isYear_yearDate in Hdate.
    destruct (tags !! TAG_YEAR) as [year|] eqn:Hyear.
    + rewrite bool_decide_eq_true_2 by eauto. cbn [negb]. split.
      * intros [_ Hnone]. discriminate.
      * intros _. split; [apply lookup_insert_eq|].
        intros key Hne. apply lookup_insert_ne. congruence.
    + rewrite bool_decide_eq_false_2 by (intros [? ?]; discriminate). cbn [negb]. split.
      * intros _. split; [apply lookup_insert_eq|].
        intros key Hne. apply lookup_insert_ne. congruence.
      * intros Hnot. exfalso. apply Hnot. split; [exact Hdate | reflexivity].
  - assert (~ yearDate (keyRead wpc i) (valueRead apeTag wpc i)) as Hno.
    { intros Hyes. apply isYear_yearDate in Hyes. congruence. }
    split.
    + intros [Hyes _]. contradiction.
    + intros _. split; [apply lookup_insert_eq|].
      intros key Hne. apply lookup_insert_ne. congruence.
Qed.

(** ** The text of a tag value *)

Lemma replaceNul_length s : String.length (replaceNul s) = String.length s.
Proof. induction s as [|a s IH]; cbn; [reflexivity|]. rewrite IH. reflexivity. Qed.

Lemma replaceNul_hasNul s : hasNul (replaceNul s) = false.
Proof.
  induction s as [|a s IH]; cbn [replaceNul hasNul]; [reflexivity|]. rewrite IH, orb_false_r.
  destruct (Ascii.eqb a NUL) eqn:Ha; [reflexivity | exact Ha].
Qed.

Lemma replaceNul_get s : forall (k : nat) c,
  String.get k s = Some c ->
  String.get k (replaceNul s) = Some (if Ascii.eqb c NUL then "\"%char else c).
Proof.
  induction s as [|a s IH]; intros k c Hget; [discriminate|].
  destruct k as [|k]; cbn [replaceNul String.get] in *.
  - injection Hget as <-. reflexivity.
  - apply IH. exact Hget.
Qed.

(** X11: for an APEv2 tag the bytes handed to the text conversion are the
    value bytes in full length, with a backslash in the place of every
    NUL and every other byte as it was; no NUL is left that could end
    the text early. *)
Theorem ape_value_kept_whole wpc i (tags : Tags) :
  let raw := WavpackGetTagItem wpc (WavpackGetTagItemIndexed wpc i) in
  (exists name,
     importTagItem true wpc i tags = SetTag name (UTF8CTOWX (nulsAsBackslashes raw)) tags) /\
  String.length (nulsAsBackslashes raw) = String.length raw /\
  hasNul (nulsAsBackslashes raw) = false /\
  (forall (k : nat) c,
     String.get k raw = Some c ->
     String.get k (nulsAsBackslashes raw) =
     Some (if Ascii.eqb c NUL then "\"%char else c)).
Proof.
  cbn zeta. rewrite <- replaceNul_backslashes.
  split; [|split; [apply replaceNul_length | split; [apply replaceNul_hasNul|]]].
  - rewrite importTagItem_read, readTagItem_read. cbn [fst snd]. unfold valueRead.
    rewrite <- replaceNul_backslashes. eexists. reflexivity.
  - apply replaceNul_get.
Qed.

(** ** The size of the tag store *)

Lemma setTags_size_le items : forall tags : Tags,
  (size (setTags items tags) <= size tags + length items)%nat.
Proof.
  induction items as [|[name value] items IH]; intros tags; [cbn; lia|].
  change (setTags ((name, value) :: items) tags)
    with (setTags items (SetTag name value tags)).
  specialize (IH (SetTag name value tags)).
  assert (size (SetTag name value tags) <= S (size tags))%nat as Hins.
  { unfold SetTag. rewrite map_size_insert. destruct (tags !! name); cbn; lia. }
  cbn [length]. lia.
Qed.

Lemma setTags_size_distinct items : forall tags : Tags,
  NoDup items.*1 ->
  (forall key, key ∈ items.*1 -> tags !! key = None) ->
  size (setTags items tags) = (size tags + length items)%nat.
Proof.
  induction items as [|[name value] items IH]; intros tags Hnodup Hfresh; [cbn; lia|].
  cbn in Hnodup. apply NoDup_cons in Hnodup. destruct Hnodup as [Hname Hnodup].
  change (setTags ((name, value) :: items) tags)
    with (setTags items (SetTag name value tags)).
  rewrite IH.
  - unfold SetTag. rewrite map_size_insert_None; [cbn [length]; lia|].
    apply Hfresh. cbn. apply elem_of_cons. left. reflexivity.
  - exact Hnodup.
  - intros key Hkey. unfold SetTag. rewrite lookup_insert_ne.
    + apply Hfresh. cbn. apply elem_of_cons. right. exact Hkey.
    + intros ->. contradiction.
Qed.

(** X13: after an import that copies the tags of a file with
    [numItems > 0] items, the tag store is not empty and has at most
    [numItems] entries; it has exactly [numItems] entries when the keys
    under which the items are stored differ from each other. *)
Theorem Import_tag_count fuel self user outTracks (tags : Tags)
    result self' outTracks' tags' :
  let wpc := mWavPackContext self in
  let numItems := WavpackGetNumTagItems wpc in
  WavPackImportFileHandle_Import fuel self user outTracks tags =
    Some (Returned result self' outTracks' tags') ->
  result <> Failed ->
  result <> Cancelled ->
  Z.land (WavpackGetMode wpc) MODE_VALID_TAG <> 0 ->
  0 < numItems ->
  (0 < size tags' <= Z.to_nat numItems)%nat /\
  (NoDup (storedTagItems wpc).*1 -> size tags' = Z.to_nat numItems).
Proof.
  intros wpc numItems Hret HF HC Hvalid Hitems.
  apply Import_returns in Hret. destruct Hret as (_ & K & _ & _ & Hend).
  apply importEnd_stateAfter in Hend. destruct Hend as (_ & _ & _ & Hok).
  destruct (Hok HF HC) as (_ & _ & ->).
  fold wpc. rewrite (importTags_setTags wpc tags Hvalid Hitems).
  assert (length (storedTagItems wpc) = Z.to_nat numItems) as Hlen.
  { unfold storedTagItems, fileTagItems. rewrite renameDates_length, length_map, length_seq.
    reflexivity. }
  unfold Tags_Clear. split; [split|].
  - destruct (storedTagItems wpc) as [|[name value] items] eqn:Hstored.
    + cbn in Hlen. lia.
    + assert (is_Some (setTags ((name, value) :: items) ∅ !! name)) as Hsome.
      { apply (setTags_has _ _ _ value). apply elem_of_cons. left. reflexivity. }
      destruct (Nat.eq_dec (size (setTags ((name, value) :: items) (∅ : Tags))) 0) as [Hz|Hnz];
        [|lia].
      apply map_size_empty_inv in Hz. rewrite Hz, lookup_empty in Hsome.
      destruct Hsome as [? ?]. discriminate.
  - pose proof (setTags_size_le (storedTagItems wpc) ∅) as Hle.
    rewrite map_size_empty in Hle. lia.
  - intros Hnodup. rewrite setTags_size_distinct.
    + rewrite map_size_empty. lia.
    + exact Hnodup.
    + intros key _. apply lookup_empty.
Qed.

(** ** The channels kept by the handle *)

Lemma runBody_extends format numChannels k : forall st,
  Forall2 extends (dsChannels st) (dsChannels (runBody k format numChannels st)).
Proof.
  induction k as [|k IH]; intros st; [apply Forall2_extends_refl|].
  cbn [runBody]. eapply Forall2_extends_trans; [apply decodeBody_extends | apply IH].
Qed.

Lemma extends_unflushed (l l' : list WaveTrack) :
  Forall2 extends l l' ->
  Forall (fun track => wtFlushed track = false) l ->
  Forall (fun track => wtFlushed track = false) l'.
Proof.
  induction 1 as [|t t' l l' (_ & _ & Hfl & _) _ IH]; intros Hl; [constructor|].
  apply Forall_cons in Hl. destruct Hl as [Ht Hl].
  constructor; [congruence | apply IH; exact Hl].
Qed.

Lemma stateAfter_unflushed self user K :
  Forall (fun track => wtFlushed track = false) (dsChannels (stateAfter self user K)).
Proof.
  unfold stateAfter. eapply extends_unflushed; [apply runBody_extends|].
  cbn [decodeStart dsChannels]. unfold newChannels. apply Forall_replicate. reflexivity.
Qed.

(** X14: a call that returns [Success] or [Stopped] moves the channels out
    of the handle, which holds none afterwards; a call that returns
    [Failed] or [Cancelled] leaves the handle with its tracks, one per
    channel, none of them flushed. *)
Theorem Import_channels_of_handle fuel self user outTracks (tags : Tags)
    result self' outTracks' tags' :
  WavPackImportFileHandle_Import fuel self user outTracks tags =
    Some (Returned result self' outTracks' tags') ->
  (result <> Failed -> result <> Cancelled -> mChannels self' = []) /\
  (result = Failed \/ result = Cancelled ->
   length (mChannels self') = Z.to_nat (mNumChannels self) /\
   Forall (fun track => wtFlushed track = false) (mChannels self')).
Proof.
  intros Hret. apply Import_returns in Hret. destruct Hret as (_ & K & _ & _ & Hend).
  pose proof (stateAfter_length self user K) as Hlen.
  pose proof (stateAfter_unflushed self user K) as Hraw.
  unfold importEnd in Hend.
  destruct (bool_decide (completenessCheck (mNumSamples self) (stateAfter self user K) = Failed)
            || bool_decide (completenessCheck (mNumSamples self) (stateAfter self user K)
                            = Cancelled)) eqn:Hfc.
  - apply orb_true_iff in Hfc. rewrite !bool_decide_eq_true in Hfc.
    injection Hend as <- <- _ _. cbn [withState mChannels]. split; [tauto|].
    intros _. split; assumption.
  - apply orb_false_iff in Hfc. rewrite !bool_decide_eq_false in Hfc.
    destruct (map Flush (dsChannels (stateAfter self user K)));
      injection Hend as <- <- _ _; cbn [withState mChannels];
      (split; [reflexivity | tauto]).
Qed.

(** ** When a call returns Success *)

(** X15: a call returns [Success] only if the loop ended because the
    library returned an empty chunk while the dialog still answered
    [Success], and the frame count taken modulo 2^32 had reached the
    declared count. *)
Theorem Import_Success_means_end_of_data fuel self user outTracks (tags : Tags)
    self' outTracks' tags' :
  WavPackImportFileHandle_Import fuel self user outTracks tags =
    Some (Returned Success self' outTracks' tags') ->
  exists K,
    (forall j, (j <= K)%nat -> user j = Success) /\
    (forall j, (j < K)%nat -> frames (mWavPackContext self) j <> 0) /\
    frames (mWavPackContext self) K = 0 /\
    mNumSamples self <= framesRead (mWavPackContext self) (S K) mod 2 ^ 32.
Proof.
  intros Hret. apply Import_returns in Hret. destruct Hret as (_ & K & _ & Hstop & Hend).
  apply importEnd_stateAfter in Hend. destruct Hend as (Hres & _).
  unfold resultAfter in Hres. fold (uint32 (framesRead (mWavPackContext self) (S K))).
  destruct (negb (bool_decide (user K = Stopped))
            && (uint32 (framesRead (mWavPackContext self) (S K)) <? mNumSamples self))
    eqn:Hcheck; [discriminate|].
  destruct Hstop as [Hbefore Hat].
  assert (user K = Success) as HuK by congruence.
  exists K. split; [|split; [|split]].
  - intros j Hj. destruct (decide (j = K)) as [->|Hne]; [exact HuK|].
    apply Hbefore. lia.
  - intros j Hj. apply Hbefore. exact Hj.
  - destruct Hat as [Hne|Hzero]; [contradiction | exact Hzero].
  - apply andb_false_iff in Hcheck. destruct Hcheck as [Hs|Hlt].
    + apply negb_false_iff, bool_decide_eq_true in Hs. congruence.
    + apply Z.ltb_ge in Hlt. exact Hlt.
Qed.

End Properties.

(** * The properties on the example files *)

Section Witnesses.

#[local] Existing Instance asciiText.

(** The example file, imported completely. *)
Lemma Import_deinterleaves_witness :
  exists K, stopsAt exampleFile patientUser K /\
    (0 < 2 -> exampleTracks = [concat exampleTracks]) /\
    length (concat exampleTracks) = Z.to_nat 2 /\
    forall chn, (chn < Z.to_nat 2)%nat ->
      exists samples,
        concat exampleTracks !! chn =
          Some {| wtFormat := int16Sample; wtRate := 44100;
                  wtSamples := samples; wtFlushed := true |} /\
        samples = concat (map (chunkSamples exampleFile 2 chn) (seq 0 (S K))) /\
        forall k,
          length (chunkSamples exampleFile 2 chn k) = Z.to_nat (frames exampleFile k) /\
          forall f : nat, (f < Z.to_nat (frames exampleFile k))%nat ->
            chunkSamples exampleFile 2 chn k !! f =
            Some (bufferAt (urBuffer (wpDecoder exampleFile k)) (Z.of_nat f * 2 + Z.of_nat chn)).
Proof.
  eapply (Import_deinterleaves 5 "a.wv" exampleFile patientUser [] ∅ Success).
  - reflexivity.
  - intros [|k]; vm_compute; discriminate.
  - reflexivity.
  - left. reflexivity.
Defined.

(** The example file, cancelled during the first update. *)
Lemma Import_cancel_fail_witness :
  (exists result self',
     WavPackImportFileHandle_Import 5 exampleHandle cancellingUser exampleTracks oldTags =
       Some (Returned result self' [] oldTags) /\
     result = completenessCheck (mNumSamples exampleHandle)
                (stateAfter exampleHandle cancellingUser 0) /\
     (result = Cancelled \/ result = Failed) /\
     (updateResult (stateAfter exampleHandle cancellingUser 0) <> Stopped /\
      totalSamplesRead (stateAfter exampleHandle cancellingUser 0) < mNumSamples exampleHandle ->
      result = Failed)) /\
  (exists self',
     WavPackImportFileHandle_Import 5 exampleHandle cancellingUser exampleTracks oldTags =
       Some (Returned Cancelled self' [] oldTags)) /\
  ([] : TrackHolders) = [] /\ oldTags = oldTags.
Proof.
  split; [|split; [eexists; reflexivity|]].
  - apply (proj1 (Import_cancel_fail 5 exampleHandle cancellingUser exampleTracks oldTags)
             (newChannels exampleHandle) (stateAfter exampleHandle cancellingUser 0)).
    + reflexivity.
    + reflexivity.
    + left. reflexivity.
  - eapply (proj2 (Import_cancel_fail 5 exampleHandle cancellingUser exampleTracks oldTags)
              Cancelled).
    + reflexivity.
    + left. reflexivity.
Defined.

(** The example file has 16 bits per sample. *)
Lemma ctor_sample_format_witness : mFormat exampleHandle = int16Sample.
Proof.
  apply (proj1 (ctor_sample_format "a.wv" exampleFile)). cbn. lia.
Defined.

(** A genre of two values and a date take the place of the tags in the
    store. *)
Lemma Import_copies_tags_witness :
  exists stored : list (wxString * wxString),
    tagItemsStored multiFile stored /\
    multiTags = setTags stored (Tags_Clear oldTags) /\
    holdsLastOf stored multiTags /\
    (NoDup stored.*1 ->
     forall key value, multiTags !! key = Some value <-> (key, value) ∈ stored).
Proof.
  eapply (Import_copies_tags 5 multiHandle patientUser [] oldTags Success).
  - reflexivity.
  - discriminate.
  - discriminate.
  - vm_compute. discriminate.
  - reflexivity.
Defined.

(** A date and then a year: the import returns [Success], and the store
    holds the year only; the file's item with the value 1999 is in the
    store under no key, so the store does not hold exactly the file's
    items. *)
Lemma Import_copies_tags_counterexample :
  exists self' outTracks',
    WavPackImportFileHandle_Import 5 clashHandle patientUser [] oldTags =
      Some (Returned Success self' outTracks' clashTags) /\
    MODE_VALID_TAG = Z.land (WavpackGetMode clashFile) MODE_VALID_TAG /\
    WavpackGetNumTagItems clashFile = 2 /\
    WavpackGetTagItemIndexed clashFile 0 = "Date"%string /\
    WavpackGetTagItem clashFile "Date" = "1999"%string /\
    clashTags !! wxT "Date" = None /\
    clashTags !! TAG_YEAR = Some (wxT "2000") /\
    ~ (exists key, clashTags !! key = Some (valueRead true clashFile 0)) /\
    ~ (exists stored : list (wxString * wxString),
         tagItemsStored clashFile stored /\
         forall key value, clashTags !! key = Some value <-> (key, value) ∈ stored).
Proof.
  assert (~ (exists key, clashTags !! key = Some (valueRead true clashFile 0))) as Habsent.
  { intros [key Hkey]. unfold clashTags in Hkey.
    destruct (decide (key = "YEAR"%string)) as [->|Hne].
    - rewrite lookup_insert_eq in Hkey. discriminate.
    - rewrite lookup_insert_ne, lookup_empty in Hkey by congruence. discriminate. }
  eexists _, _. split; [reflexivity|].
  split; [reflexivity|]. split; [reflexivity|]. split; [reflexivity|].
  split; [reflexivity|]. split; [reflexivity|]. split; [reflexivity|].
  split; [exact Habsent|].
  intros (stored & [Hlen Hrule] & Hexact).
  destruct stored as [|[key value] rest]; [discriminate Hlen|].
  destruct (Hrule 0%nat key value eq_refl) as [Hvalue _].
  apply Habsent. exists key.
  change (valueRead true clashFile 0) with
    (valueRead (negb (Z.land (WavpackGetMode clashFile) MODE_APETAG =? 0)) clashFile
       (Z.of_nat 0)).
  rewrite <- Hvalue. apply Hexact. apply elem_of_cons. left. reflexivity.
Qed.

(** The example file: two calls of the library, the second returns 0. *)
Lemma decode_loop_chunked_witness :
  (exists K, (K < 5)%nat /\ stopsAt exampleFile patientUser K /\
     wpRequested (dsContext (stateAfter exampleHandle patientUser 1)) =
       wpRequested exampleFile ++ replicate (S K) SAMPLES_TO_READ /\
     Forall (fun samples => samples <= 100000) (replicate (S K) SAMPLES_TO_READ)) /\
  (exists K, (K <= 1)%nat /\ stopsAt exampleFile patientUser K /\
     forall fuel, (K < fuel)%nat ->
       exists outcome,
         WavPackImportFileHandle_Import fuel exampleHandle patientUser [] ∅ = Some outcome).
Proof.
  split.
  - apply (proj1 (decode_loop_chunked exampleHandle patientUser [] ∅) 5%nat Success
             (withState exampleHandle
                (dsProgress (stateAfter exampleHandle patientUser 1))
                (dsContext (stateAfter exampleHandle patientUser 1)) [])
             exampleTracks exampleTags).
    reflexivity.
  - apply (proj2 (decode_loop_chunked exampleHandle patientUser [] ∅) 1%nat).
    reflexivity.
Defined.

(** A missing file and the example file, opened. *)
Lemma Open_follows_library_witness :
  WavPackImportPlugin_Open exampleLibrary "missing.wv" = None /\
  exists handle,
    WavPackImportPlugin_Open exampleLibrary "a.wv" = Some handle /\
    mFilename handle = "a.wv"%string /\
    mWavPackContext handle = exampleFile.
Proof.
  split.
  - apply (proj1 (Open_follows_library exampleLibrary "missing.wv")). reflexivity.
  - apply (proj2 (Open_follows_library exampleLibrary "a.wv")). reflexivity.
Defined.

(** The example file delivers the two frames it declares. *)
Lemma completeness_check_wraps_witness :
  exists K, stopsAt exampleFile patientUser K /\
    let total := framesRead exampleFile (S K) mod 2 ^ 32 in
    totalSamplesRead (stateAfter exampleHandle patientUser K) = total /\
    (patientUser K <> Stopped -> total < 2 -> Success = Failed) /\
    (Success <> Failed -> patientUser K = Stopped \/ 2 <= total) /\
    (2 ^ 32 <= 2 -> Success = Failed \/ Success = Stopped).
Proof.
  eapply (completeness_check_wraps 5 exampleHandle patientUser [] ∅ Success).
  reflexivity.
Defined.

(** The example file in a file that declares five frames, stopped
    during the first update, when two frames have been read. *)
Lemma Import_stopped_keeps_partial_witness :
  totalSamplesRead (stateAfter longHandle stoppingUser 0) < mNumSamples longHandle /\
  exists self' outTracks' tags',
    WavPackImportFileHandle_Import 5 longHandle stoppingUser [] oldTags =
      Some (Returned Stopped self' outTracks' tags') /\
    tags' = importTags longFile oldTags /\
    stopsAt longFile stoppingUser 0 /\
    let wpc := longFile in
    let channels := dsChannels (stateAfter longHandle stoppingUser 0) in
    length channels = Z.to_nat 2 /\
    concat outTracks' = map Flush channels /\
    (0 < 2 -> outTracks' = [map Flush channels]) /\
    Forall (fun track => wtFlushed track = true) (concat outTracks') /\
    (bufferSize longHandle = 2 * SAMPLES_TO_READ ->
     (forall k, frames wpc k <= SAMPLES_TO_READ) ->
     map Flush channels = decodedChannels longHandle 1) /\
    (Z.land (WavpackGetMode wpc) MODE_VALID_TAG <> 0 ->
     0 < WavpackGetNumTagItems wpc ->
     exists stored : list (wxString * wxString),
       tagItemsStored wpc stored /\
       tags' = setTags stored (Tags_Clear oldTags) /\
       holdsLastOf stored tags') /\
    (Z.land (WavpackGetMode wpc) MODE_VALID_TAG = 0 \/ WavpackGetNumTagItems wpc <= 0 ->
     tags' = oldTags).
Proof.
  split; [reflexivity|].
  apply (Import_stopped_keeps_partial 5 longHandle stoppingUser [] oldTags 0).
  - vm_compute. discriminate.
  - intros j Hj. lia.
  - reflexivity.
  - lia.
Defined.

(** The example file without tags, imported into a store in use. *)
Lemma Import_without_tags_witness :
  exists self',
    WavPackImportFileHandle_Import 5 untaggedHandle patientUser [] oldTags =
      Some (Returned Success self' exampleTracks oldTags) /\
    oldTags = oldTags.
Proof.
  eexists. split; [reflexivity|].
  eapply (Import_without_tags 5 untaggedHandle patientUser [] oldTags Success).
  - reflexivity.
  - left. reflexivity.
Defined.

(** The example file: the channels after the two passes of the loop. *)
Lemma decodeLoop_only_appends_witness :
  Forall2 extends (newChannels exampleHandle)
    (dsChannels (stateAfter exampleHandle patientUser 1)).
Proof.
  apply (decodeLoop_only_appends 5 int16Sample 2
           (decodeStart exampleFile (newChannels exampleHandle) (CreateProgress patientUser))
           (stateAfter exampleHandle patientUser 1)).
  reflexivity.
Defined.

(** Two frames of two channels: the fifth element of the buffer does not
    matter. *)
Lemma deinterleave_reads_reported_frames_witness :
  deinterleave 4 [10; 20; 11; 21; 77] int16Sample 2 4 0 (newChannels exampleHandle) =
  deinterleave 4 [10; 20; 11; 21; 99] int16Sample 2 4 0 (newChannels exampleHandle).
Proof.
  apply (deinterleave_reads_reported_frames [10; 20; 11; 21; 77] [10; 20; 11; 21; 99]
           int16Sample 2 2 (newChannels exampleHandle)).
  - lia.
  - lia.
  - reflexivity.
  - reflexivity.
  - reflexivity.
Defined.

(** The example file: two samples in each channel. *)
Lemma Import_channels_equal_length_witness :
  exists K, stopsAt exampleFile patientUser K /\
    Forall (fun track =>
              Z.of_nat (length (wtSamples track)) = framesRead exampleFile (S K))
           (concat exampleTracks).
Proof.
  eapply (Import_channels_equal_length 5 exampleHandle patientUser [] ∅ Success).
  - reflexivity.
  - intros [|k]; vm_compute; discriminate.
  - reflexivity.
  - left. reflexivity.
Defined.

(** The example file yields one group of two tracks. *)
Lemma Import_at_most_one_group_witness :
  (exampleTracks = [] \/
   exists group, exampleTracks = [group] /\
     0 < mNumChannels exampleHandle /\
     length group = Z.to_nat (mNumChannels exampleHandle) /\
     Forall (fun track => wtFlushed track = true) group) /\
  (mNumChannels exampleHandle = 0 -> exampleTracks = []) /\
  (0 < mNumChannels exampleHandle -> Success <> Failed -> Success <> Cancelled ->
   exampleTracks <> []).
Proof.
  eapply (Import_at_most_one_group 5 exampleHandle patientUser [] ∅ Success).
  reflexivity.
Defined.

(** The example file after a complete import. *)
Lemma Import_keeps_metadata_witness :
  exists self',
    WavPackImportFileHandle_Import 5 exampleHandle patientUser [] ∅ =
      Some (Returned Success self' exampleTracks exampleTags) /\
    sameMetadata exampleHandle self' /\
    exists K progress,
      stopsAt exampleFile patientUser K /\
      mProgress self' = Some progress /\
      (forall j, wpDecoder (mWavPackContext self') j = wpDecoder exampleFile (S K + j)%nat) /\
      (forall j, pdAnswers progress j = patientUser (S K + j)%nat).
Proof.
  eexists. split; [reflexivity|].
  eapply (Import_keeps_metadata 5 exampleHandle patientUser [] ∅ Success).
  reflexivity.
Defined.

(** A stream of unknown length, cancelled: the result stays [Cancelled]. *)
Lemma Import_unknown_length_witness :
  exists K, stopsAt (exampleFileDeclaring (-1)) cancellingUser K /\
            Cancelled = cancellingUser K.
Proof.
  eapply (Import_unknown_length 5 streamHandle cancellingUser [] oldTags Cancelled).
  - vm_compute. discriminate.
  - reflexivity.
Defined.

(** A file that declares five frames and delivers two. *)
Lemma Import_incomplete_fails_witness :
  exists self',
    WavPackImportFileHandle_Import 5 truncatedHandle patientUser exampleTracks oldTags =
      Some (Returned Failed self' [] oldTags).
Proof.
  apply (Import_incomplete_fails 5 truncatedHandle patientUser exampleTracks oldTags 1).
  - vm_compute. discriminate.
  - split.
    + intros [|j] Hj; [|lia]. split; [reflexivity | vm_compute; discriminate].
    + right. reflexivity.
  - lia.
  - discriminate.
  - reflexivity.
Defined.

(** The example file delivers the two frames it declares. *)
Lemma Import_complete_file_witness :
  exists self' outTracks',
    WavPackImportFileHandle_Import 5 exampleHandle patientUser [] oldTags =
      Some (Returned Success self' outTracks' (importTags exampleFile oldTags)) /\
    concat outTracks' = decodedChannels exampleHandle 2 /\
    Forall (fun track => Z.of_nat (length (wtSamples track)) = mNumSamples exampleHandle)
           (concat outTracks').
Proof.
  apply (Import_complete_file 5 exampleHandle patientUser [] oldTags 1).
  - reflexivity.
  - intros [|k]; vm_compute; discriminate.
  - intros j _. reflexivity.
  - intros [|j] Hj; [vm_compute; discriminate | lia].
  - reflexivity.
  - reflexivity.
  - reflexivity.
  - lia.
Defined.

(** The example file, imported twice. *)
Lemma Import_twice_fails_witness :
  exists result self' outTracks' tags',
    WavPackImportFileHandle_Import 5 exampleHandle patientUser [] oldTags =
      Some (Returned result self' outTracks' tags') /\
    exists self'',
      WavPackImportFileHandle_Import 5 self' patientUser exampleTracks exampleTags =
        Some (Returned Failed self'' [] exampleTags).
Proof.
  apply (Import_twice_fails 5 5 exampleHandle patientUser patientUser [] exampleTracks
           oldTags exampleTags 1).
  - vm_compute. discriminate.
  - split.
    + intros [|j] Hj; [|lia]. split; [reflexivity | vm_compute; discriminate].
    + right. reflexivity.
  - lia.
  - reflexivity.
  - reflexivity.
  - discriminate.
  - lia.
Defined.

(** The date of the example file goes to the year, its title stays a
    title, and the artist in the store is not touched. *)
Lemma importTagItem_stores_and_keeps_witness :
  (importTagItem true exampleFile 1 oldTags !! TAG_YEAR = Some (valueRead true exampleFile 1) /\
   forall key, key <> TAG_YEAR ->
     importTagItem true exampleFile 1 oldTags !! key = oldTags !! key) /\
  (importTagItem true exampleFile 0 oldTags !! keyRead exampleFile 0 =
     Some (valueRead true exampleFile 0) /\
   forall key, key <> keyRead exampleFile 0 ->
     importTagItem true exampleFile 0 oldTags !! key = oldTags !! key).
Proof.
  split.
  - apply (proj1 (importTagItem_stores_and_keeps true exampleFile 1 oldTags)).
    split; [|reflexivity]. split; [reflexivity|]. split; reflexivity.
  - apply (proj2 (importTagItem_stores_and_keeps true exampleFile 0 oldTags)).
    intros [[Hupper _] _]. vm_compute in Hupper. discriminate.
Defined.

(** The NUL between the two values of the genre. *)
Lemma ape_value_kept_whole_witness :
  String.get 4 (nulsAsBackslashes rockPop) = Some "\"%char.
Proof.
  apply (proj2 (proj2 (proj2 (ape_value_kept_whole multiFile 0 ∅))) 4%nat NUL).
  reflexivity.
Defined.

(** The two tag items of the example file. *)
Lemma Import_tag_count_witness :
  (0 < size exampleTags <= Z.to_nat 2)%nat /\
  (NoDup (storedTagItems exampleFile).*1 -> size exampleTags = Z.to_nat 2).
Proof.
  eapply (Import_tag_count 5 exampleHandle patientUser [] oldTags Success).
  - reflexivity.
  - discriminate.
  - discriminate.
  - vm_compute. discriminate.
  - reflexivity.
Defined.

(** The example file: moved out after [Success], kept after [Failed]. *)
Lemma Import_channels_of_handle_witness :
  (exists self',
     WavPackImportFileHandle_Import 5 exampleHandle patientUser [] ∅ =
       Some (Returned Success self' exampleTracks exampleTags) /\
     mChannels self' = []) /\
  (exists self',
     WavPackImportFileHandle_Import 5 truncatedHandle patientUser [] ∅ =
       Some (Returned Failed self' [] ∅) /\
     length (mChannels self') = Z.to_nat (mNumChannels truncatedHandle) /\
     Forall (fun track => wtFlushed track = false) (mChannels self')).
Proof.
  split.
  - eexists. split; [reflexivity|].
    refine (proj1 (Import_channels_of_handle 5 exampleHandle patientUser [] ∅ Success
                     _ exampleTracks exampleTags eq_refl) _ _); discriminate.
  - eexists. split; [reflexivity|].
    refine (proj2 (Import_channels_of_handle 5 truncatedHandle patientUser [] ∅ Failed
                     _ [] ∅ eq_refl) _). left. reflexivity.
Defined.

(** The example file: the second call of the library returns no frame. *)
Lemma Import_Success_means_end_of_data_witness :
  exists K,
    (forall j, (j <= K)%nat -> patientUser j = Success) /\
    (forall j, (j < K)%nat -> frames exampleFile j <> 0) /\
    frames exampleFile K = 0 /\
    mNumSamples exampleHandle <= framesRead exampleFile (S K) mod 2 ^ 32.
Proof.
  eapply (Import_Success_means_end_of_data 5 exampleHandle patientUser [] ∅).
  reflexivity.
Defined.

End Witnesses.
